(** * Hyper-V security groups driver

    A shallow embedding of [hyperv/neutron/security_groups_driver.py]:
    the rule generator ([SecurityGroupRuleGeneratorR2]), the rule value
    ([SecurityGroupRuleR2]), the selector ([_select_sg_rules_for_port]) and
    the port-filter lifecycle of [HyperVSecurityGroupsDriverMixin].

    Python dictionaries are [gmap]s (only lookups, copies, stores and
    equality are used on them), the constant tables of [ACL_PROP_MAP] are
    association lists in the order they are written, exceptions are an
    explicit [outcome], and the driver's attributes together with the log of
    calls made to the enforcement provider are threaded through a state and
    error monad. *)

From Stdlib Require Import ZArith DecimalString Ascii.
From stdpp Require Import gmap strings list fin_maps.

(** ** Python values *)

(** The values that occur in rule dictionaries and in rule attributes.
    Equality is structural (Python also identifies [True] with [1]; nothing
    below compares a boolean with an integer). *)
Inductive pyval : Type :=
  | VNone
  | VBool (b : bool)
  | VInt (n : Z)
  | VStr (s : string).

#[global] Instance pyval_eq_dec : EqDecision pyval.
Proof. solve_decision. Defined.

(** [bool(v)]: the truth value Python's [not] tests. *)
Definition truthy (v : pyval) : bool :=
  match v with
  | VNone => false
  | VBool b => b
  | VInt n => negb (Z.eqb n 0)
  | VStr s => negb (String.eqb s "")
  end.

(** [str(v)], as used by ['%s-%s' % (...)]. *)
Definition py_str (v : pyval) : string :=
  match v with
  | VNone => "None"
  | VBool true => "True"
  | VBool false => "False"
  | VInt n => NilZero.string_of_int (Z.to_int n)
  | VStr s => s
  end.

(** [s.split(sep, 1)[0]] for a non-empty [sep]: the text before the first
    occurrence of [sep], the whole of [s] when there is none. *)
Fixpoint split_first (sep s : string) : string :=
  if String.prefix sep s then ""
  else match s with
       | EmptyString => ""
       | String c s' => String c (split_first sep s')
       end.

(** A rule template, an abstract rule, a provider rule: a dictionary. *)
Abbreviation rule := (gmap string pyval).

(** ** Exceptions *)

Inductive exn : Type :=
  | KeyError
  | ValueError
  | TypeError
  | AttributeError
  | AddrFormatError
  | ProviderException (msg : string).

Inductive outcome (A : Type) : Type :=
  | Ok (a : A)
  | Raise (e : exn).
Arguments Ok {A} a.
Arguments Raise {A} e.

Definition obind {A B} (m : outcome A) (k : A -> outcome B) : outcome B :=
  match m with
  | Ok a => k a
  | Raise e => Raise e
  end.

Declare Scope outcome_scope.
Delimit Scope outcome_scope with outcome.
Notation "'try!' x ':=' m 'in' k" := (obind m (fun x => k))
  (at level 10, x name, m at level 100, k at level 200) : outcome_scope.

(** Loops that extend an accumulator with what each element yields; the
    first exception ends the loop. *)
Fixpoint flat_mapM {A B} (f : A -> outcome (list B)) (l : list A)
  : outcome (list B) :=
  match l with
  | [] => Ok []
  | x :: l' =>
      (try! ys := f x in
       try! rest := flat_mapM f l' in
       Ok (ys ++ rest))%outcome
  end.

(** [d[k]] on a rule dictionary. *)
Definition getitem (d : rule) (k : string) : outcome pyval :=
  match d !! k with
  | Some v => Ok v
  | None => Raise KeyError
  end.

(** A constant table with string keys, in the order it is written. *)
Definition table (V : Type) : Type := list (string * V).

Fixpoint table_get {V} (t : table V) (k : string) : option V :=
  match t with
  | [] => None
  | (k', v) :: t' => if String.eqb k' k then Some v else table_get t' k
  end.

(** [k in t] and [t[k]] for a key that is any Python value: only a string
    can be a key of these tables. *)
Definition table_lookup {V} (t : table V) (k : pyval) : option V :=
  match k with
  | VStr s => table_get t s
  | _ => None
  end.

Definition table_getitem {V} (t : table V) (k : pyval) : outcome V :=
  match table_lookup t k with
  | Some v => Ok v
  | None => Raise KeyError
  end.

Definition table_keys {V} (t : table V) : list string := t.*1.
Definition table_values {V} (t : table V) : list V := t.*2.

(** ** The constants of the enforcement library

    [networkutils.NetworkUtils] belongs to os-win, an external library: its
    class constants are taken as an interface. *)
Record NetworkUtils : Type := {
  _ACL_DIR_IN : pyval;
  _ACL_DIR_OUT : pyval;
  _ACL_TYPE_IPV4 : pyval;
  _ACL_TYPE_IPV6 : pyval;
  _TCP_PROTOCOL : pyval;
  _UDP_PROTOCOL : pyval;
  _ICMP_PROTOCOL : pyval;
  _ICMPV6_PROTOCOL : pyval;
  _ACL_ACTION_ALLOW : pyval;
  _ACL_ACTION_DENY : pyval
}.

Definition INGRESS_DIRECTION : string := "ingress".
Definition EGRESS_DIRECTION : string := "egress".
Definition DIRECTION_IP_PREFIX : table string :=
  [("ingress", "source_ip_prefix"); ("egress", "dest_ip_prefix")].

(** ** Rule values *)

(** An instance of [SecurityGroupRuleR2]. [IdleSessionTimeout] and [Weight]
    are class attributes, readable (and assignable) on every instance. *)
Record SecurityGroupRuleR2 : Type := MkSecurityGroupRuleR2 {
  Direction : pyval;
  Action : pyval;
  LocalPort : string;
  Protocol : pyval;
  RemoteIPAddress : string;
  Stateful : bool;
  IdleSessionTimeout : Z;
  Weight : Z;
  _cached_hash : Z
}.

#[global] Instance SecurityGroupRuleR2_eq_dec : EqDecision SecurityGroupRuleR2.
Proof. solve_decision. Defined.

(** What the driver's lists hold: dictionaries and rule objects, mixed. *)
Inductive item : Type :=
  | Abstract (r : rule)
  | Concrete (c : SecurityGroupRuleR2).

#[global] Instance item_eq_dec : EqDecision item.
Proof. solve_decision. Defined.

Definition _FIELDS : list string :=
  ["Direction"; "Action"; "LocalPort"; "Protocol";
   "RemoteIPAddress"; "Stateful"; "IdleSessionTimeout"].

(** [getattr(o, f)] on a rule object; [None] when there is no such
    attribute. *)
Definition getattr (o : SecurityGroupRuleR2) (f : string) : option pyval :=
  if String.eqb f "Direction" then Some (Direction o)
  else if String.eqb f "Action" then Some (Action o)
  else if String.eqb f "LocalPort" then Some (VStr (LocalPort o))
  else if String.eqb f "Protocol" then Some (Protocol o)
  else if String.eqb f "RemoteIPAddress" then Some (VStr (RemoteIPAddress o))
  else if String.eqb f "Stateful" then Some (VBool (Stateful o))
  else if String.eqb f "IdleSessionTimeout" then Some (VInt (IdleSessionTimeout o))
  else if String.eqb f "Weight" then Some (VInt (Weight o))
  else if String.eqb f "_cached_hash" then Some (VInt (_cached_hash o))
  else None.

(** [getattr] on anything a list may hold: a dictionary has none of the
    attributes named in [_FIELDS]. *)
Definition item_getattr (x : item) (f : string) : option pyval :=
  match x with
  | Abstract _ => None
  | Concrete o => getattr o f
  end.

(** [SecurityGroupRuleBase.__eq__]. *)
Definition __eq__ (self : SecurityGroupRuleR2) (obj : item) : bool :=
  forallb (fun f =>
             match item_getattr obj f with
             | None => false
             | Some v => bool_decide (Some v = getattr self f)
             end) _FIELDS.

(** [SecurityGroupRuleR2.__hash__]. *)
Definition __hash__ (self : SecurityGroupRuleR2) : Z := _cached_hash self.

(** [x == y]: a rule object answers with [__eq__]; a dictionary compared
    with a rule object defers to the object's [__eq__]; two dictionaries
    compare by content. *)
Definition py_eq (x y : item) : bool :=
  match x, y with
  | Concrete a, _ => __eq__ a y
  | Abstract _, Concrete b => __eq__ b x
  | Abstract a, Abstract b => bool_decide (a = b)
  end.

(** [x in l]. *)
Definition py_in (x : item) (l : list item) : bool := existsb (py_eq x) l.

(** [l.remove(x)]: drops the first element equal to [x]; [None] stands for
    the [ValueError] raised when there is none. *)
Fixpoint list_remove (x : item) (l : list item) : option (list item) :=
  match l with
  | [] => None
  | y :: l' =>
      if py_eq y x then Some l'
      else match list_remove x l' with
           | Some r => Some (y :: r)
           | None => None
           end
  end.

(** ** The rule generator *)

Section Generator.

Context (nu : NetworkUtils).

(** The builtin [hash] on the tuple
    [(direction, action, LocalPort, protocol, remote_addr)]. *)
Context (py_hash : pyval * pyval * string * pyval * string -> Z).

Definition ACL_PROP_MAP_direction : table pyval :=
  [("ingress", _ACL_DIR_IN nu); ("egress", _ACL_DIR_OUT nu)].
Definition ACL_PROP_MAP_ethertype : table pyval :=
  [("IPv4", _ACL_TYPE_IPV4 nu); ("IPv6", _ACL_TYPE_IPV6 nu)].
Definition ACL_PROP_MAP_protocol : table pyval :=
  [("tcp", _TCP_PROTOCOL nu); ("udp", _UDP_PROTOCOL nu);
   ("icmp", _ICMP_PROTOCOL nu); ("ipv6-icmp", _ICMPV6_PROTOCOL nu)].
Definition ACL_PROP_MAP_action : table pyval :=
  [("allow", _ACL_ACTION_ALLOW nu); ("deny", _ACL_ACTION_DENY nu)].
Definition ACL_PROP_MAP_default : string := "ANY".
Definition ACL_PROP_MAP_address_default : table string :=
  [("IPv4", "0.0.0.0/0"); ("IPv6", "::/0")].

(** [SecurityGroupRuleR2.__init__]. The identity test
    [action is not ACL_PROP_MAP['action']['deny']] is a comparison of
    values: the codes are constants of one table. *)
Definition SecurityGroupRuleR2__init__
    (direction : pyval) (local_port : string) (protocol : pyval)
    (remote_addr : string) (action : pyval) : SecurityGroupRuleR2 :=
  let is_not_icmp :=
    negb (bool_decide (protocol ∈ [_ICMP_PROTOCOL nu; _ICMPV6_PROTOCOL nu])) in
  let local := if is_not_icmp then local_port else "" in
  {| Direction := direction;
     Action := action;
     LocalPort := local;
     Protocol := protocol;
     RemoteIPAddress := remote_addr;
     Stateful :=
       is_not_icmp && negb (bool_decide (action = _ACL_ACTION_DENY nu));
     IdleSessionTimeout := 0;
     Weight := 65500;
     _cached_hash :=
       py_hash (direction, action, local, protocol, remote_addr) |}.

Definition _get_rule_prop_or_default (r : rule) (prop : string) : pyval :=
  match r !! prop with
  | Some v => v
  | None => VStr ACL_PROP_MAP_default
  end.

Definition _get_rule_protocol (r : rule) : pyval :=
  let protocol := _get_rule_prop_or_default r "protocol" in
  match table_lookup ACL_PROP_MAP_protocol protocol with
  | Some code => code
  | None => protocol
  end.

Definition _get_rule_port_range (r : rule) : string :=
  match r !! "port_range_min", r !! "port_range_max" with
  | Some lo, Some hi => py_str lo +:+ "-" +:+ py_str hi
  | _, _ => ACL_PROP_MAP_default
  end.

Definition _get_rule_remote_address (r : rule) : outcome pyval :=
  (try! d := getitem r "direction" in
   let ip_prefix :=
     if bool_decide (d = VStr "ingress") then "source_ip_prefix"
     else "dest_ip_prefix" in
   match r !! ip_prefix with
   | Some v => Ok v
   | None =>
       try! ethertype := getitem r "ethertype" in
       try! a := table_getitem ACL_PROP_MAP_address_default ethertype in
       Ok (VStr a)
   end)%outcome.

(** [SecurityGroupRuleGeneratorR2.create_security_group_rule]. Handed a
    rule object instead of a dictionary, the first membership test
    (['port_range_min' in rule]) raises [TypeError]; [split] on a remote
    address that is not a string raises [AttributeError]. *)
Definition create_security_group_rule (x : item)
  : outcome (list SecurityGroupRuleR2) :=
  match x with
  | Concrete _ => Raise TypeError
  | Abstract r =>
      (let local_port := _get_rule_port_range r in
       try! d := getitem r "direction" in
       try! direction := table_getitem ACL_PROP_MAP_direction d in
       try! remote := _get_rule_remote_address r in
       match remote with
       | VStr remote_address =>
           let remote_address := split_first "/128" remote_address in
           let protocol := _get_rule_protocol r in
           let protocols :=
             if bool_decide (protocol = VStr ACL_PROP_MAP_default)
             then table_values ACL_PROP_MAP_protocol
             else [protocol] in
           Ok (map (fun proto =>
                      SecurityGroupRuleR2__init__
                        direction local_port proto remote_address
                        (_ACL_ACTION_ALLOW nu))
                   protocols)
       | _ => Raise AttributeError
       end)%outcome
  end.

(** [SecurityGroupRuleGenerator.create_security_group_rules]. *)
Definition create_security_group_rules (rules : list item)
  : outcome (list SecurityGroupRuleR2) :=
  flat_mapM create_security_group_rule rules.

(** [SecurityGroupRuleGeneratorR2.create_default_sg_rules]. *)
Definition create_default_sg_rules : list SecurityGroupRuleR2 :=
  let ip_type_pairs :=
    omap (fun ip =>
            match table_get ACL_PROP_MAP_ethertype ip,
                  table_get ACL_PROP_MAP_address_default ip with
            | Some t, Some a => Some (t, a)
            | _, _ => None
            end)
         (table_keys ACL_PROP_MAP_ethertype) in
  let action := _ACL_ACTION_DENY nu in
  let port := ACL_PROP_MAP_default in
  direction ← table_values ACL_PROP_MAP_direction;
  protocol ← table_values ACL_PROP_MAP_protocol;
  '(acl_type, address) ← ip_type_pairs;
  [SecurityGroupRuleR2__init__ direction port protocol address action].

(** [SecurityGroupRuleGeneratorR2.compute_new_rules_add]. *)
Definition compute_new_rules_add
    (old_rules : list item) (new_rules : list SecurityGroupRuleR2)
  : list SecurityGroupRuleR2 * list SecurityGroupRuleR2 :=
  (filter (fun r => py_in (Concrete r) old_rules = false) new_rules, []).

End Generator.

(** A sample assignment of the library's codes. *)
Definition sample_networkutils : NetworkUtils :=
  {| _ACL_DIR_IN := VInt 1;
     _ACL_DIR_OUT := VInt 2;
     _ACL_TYPE_IPV4 := VInt 2;
     _ACL_TYPE_IPV6 := VInt 3;
     _TCP_PROTOCOL := VStr "tcp";
     _UDP_PROTOCOL := VStr "udp";
     _ICMP_PROTOCOL := VStr "1";
     _ICMPV6_PROTOCOL := VStr "58";
     _ACL_ACTION_ALLOW := VInt 1;
     _ACL_ACTION_DENY := VInt 2 |}.

(** A sample hash, injective on nothing in particular. *)
Definition sample_hash (k : pyval * pyval * string * pyval * string) : Z :=
  Z.of_nat (String.length (k.1.1.2)) + Z.of_nat (String.length k.2).

(** ** The driver's state *)

(** A port description: [port['id']], [port['device']],
    [port.get('fixed_ips', [])], [port.get('security_groups', [])] and
    [port['security_group_rules']], the provider rules. *)
Record port : Type := {
  port_id : string;
  device : string;
  fixed_ips : list string;
  security_groups : list string;
  security_group_rules : list rule
}.

(** The calls the driver makes on [self._utils]. *)
Inductive provider_call : Type :=
  | create_security_rules (pid : string) (sg_rules : list SecurityGroupRuleR2)
  | remove_security_rules (pid : string) (sg_rules : list SecurityGroupRuleR2)
  | clear_port_sg_acls_cache (pid : string).

(** The attributes of [HyperVSecurityGroupsDriverMixin], and the calls made
    to the provider so far, oldest first. Every list stored under
    [_sec_group_rules] is referenced from that entry alone, so updating the
    list in place is updating the entry. *)
Record driver : Type := {
  _sec_group_rules : gmap string (list item);
  _security_ports : gmap string port;
  _sg_members : gmap string (gmap string (list string));
  _sg_rule_templates : gmap string (list rule);
  calls : list provider_call
}.

Definition with_sec_group_rules
    (f : gmap string (list item) -> gmap string (list item)) (st : driver)
  : driver :=
  {| _sec_group_rules := f (_sec_group_rules st);
     _security_ports := _security_ports st;
     _sg_members := _sg_members st;
     _sg_rule_templates := _sg_rule_templates st;
     calls := calls st |}.

Definition with_security_ports
    (f : gmap string port -> gmap string port) (st : driver) : driver :=
  {| _sec_group_rules := _sec_group_rules st;
     _security_ports := f (_security_ports st);
     _sg_members := _sg_members st;
     _sg_rule_templates := _sg_rule_templates st;
     calls := calls st |}.

Definition record_call (c : provider_call) (st : driver) : driver :=
  {| _sec_group_rules := _sec_group_rules st;
     _security_ports := _security_ports st;
     _sg_members := _sg_members st;
     _sg_rule_templates := _sg_rule_templates st;
     calls := calls st ++ [c] |}.

(** [HyperVSecurityGroupsDriverMixin.__init__]. *)
Definition HyperVSecurityGroupsDriverMixin__init__ : driver :=
  {| _sec_group_rules := ∅;
     _security_ports := ∅;
     _sg_members := ∅;
     _sg_rule_templates := ∅;
     calls := [] |}.

(** [update_security_group_rules] and [update_security_group_members]. *)
Definition update_security_group_rules
    (sg_id : string) (sg_rules : list rule) (st : driver) : driver :=
  {| _sec_group_rules := _sec_group_rules st;
     _security_ports := _security_ports st;
     _sg_members := _sg_members st;
     _sg_rule_templates := <[sg_id := sg_rules]> (_sg_rule_templates st);
     calls := calls st |}.

Definition update_security_group_members
    (sg_id : string) (sg_members : gmap string (list string)) (st : driver)
  : driver :=
  {| _sec_group_rules := _sec_group_rules st;
     _security_ports := _security_ports st;
     _sg_members := <[sg_id := sg_members]> (_sg_members st);
     _sg_rule_templates := _sg_rule_templates st;
     calls := calls st |}.

(** What the driver keeps about ports and groups: everything but the log of
    provider calls. *)
Definition bookkeeping (st : driver) :=
  (_sec_group_rules st, _security_ports st, _sg_members st,
   _sg_rule_templates st).

(** ** The state and error monad of the lifecycle *)

Definition M (A : Type) : Type := driver -> outcome A * driver.

Definition ret {A} (a : A) : M A := fun st => (Ok a, st).

Definition bind {A B} (m : M A) (k : A -> M B) : M B :=
  fun st =>
    match m st with
    | (Ok a, st') => k a st'
    | (Raise e, st') => (Raise e, st')
    end.

Definition lift {A} (f : driver -> outcome A) : M A := fun st => (f st, st).

Definition modify (f : driver -> driver) : M unit := fun st => (Ok tt, f st).

Declare Scope driver_scope.
Delimit Scope driver_scope with driver.
Notation "'do!' x ':=' m 'in' k" := (bind m (fun x => k))
  (at level 10, x name, m at level 100, k at level 200) : driver_scope.
Notation "m ';;;' k" := (bind m (fun _ => k))
  (at level 100, k at level 200, right associativity) : driver_scope.

(** [d[k]] on a cache keyed by strings, for a key that is any value. *)
Definition cache_getitem {V} (d : gmap string V) (k : pyval) : outcome V :=
  match k with
  | VStr s =>
      match d !! s with
      | Some v => Ok v
      | None => Raise KeyError
      end
  | _ => Raise KeyError
  end.

(** ** Selector and lifecycle *)

Section Driver.

Context (nu : NetworkUtils).
Context (py_hash : pyval * pyval * string * pyval * string -> Z).

(** [str(netaddr.IPNetwork(ip).cidr)], of the external library netaddr;
    it raises on text that is no address. *)
Context (ipnetwork_cidr : string -> outcome string).

(** The enforcement provider: whether a call raises, and with what, given
    the calls made before it. *)
Context (provider : list provider_call -> provider_call -> option string).

(** The order in which a [set] of rules is iterated by [list(set(...))]. *)
Context (set_iter : list SecurityGroupRuleR2 -> list SecurityGroupRuleR2).

(** [_select_sg_rules_for_port]. *)
Definition _select_sg_rules_for_port
    (st : driver) (port : port) (direction : string)
  : outcome (list rule) :=
  let sg_ids := security_groups port in
  let fixed_ips := fixed_ips port in
  flat_mapM (fun sg_id =>
    flat_mapM (fun r : rule =>
      (try! d := getitem r "direction" in
       if bool_decide (d ≠ VStr direction) then Ok []
       else
         let remote_group_id := default VNone (r !! "remote_group_id") in
         if negb (truthy remote_group_id)
         then Ok [<["security_group_id" := VStr sg_id]> r]
         else
           try! ethertype := getitem r "ethertype" in
           try! group := cache_getitem (_sg_members st) remote_group_id in
           try! ips := cache_getitem group ethertype in
           flat_mapM (fun ip =>
             if bool_decide (ip ∈ fixed_ips) then Ok []
             else
               try! direction_ip_prefix :=
                 table_getitem DIRECTION_IP_PREFIX (VStr direction) in
               try! cidr := ipnetwork_cidr ip in
               Ok [<["security_group_id" := VStr sg_id]>
                     (<[direction_ip_prefix := VStr cidr]> r)])
             ips)%outcome)
      (default [] (_sg_rule_templates st !! sg_id)))
    sg_ids.

(** [_generate_rules]: the loop over [ports], filling [newports]. *)
Fixpoint _generate_rules_loop
    (st : driver) (newports : gmap string (list rule)) (ports : list port)
  : outcome (gmap string (list rule)) :=
  match ports with
  | [] => Ok newports
  | port :: ports' =>
      (try! ingress := _select_sg_rules_for_port st port INGRESS_DIRECTION in
       try! egress := _select_sg_rules_for_port st port EGRESS_DIRECTION in
       _generate_rules_loop
         st (<[port_id port := ingress ++ egress]> newports) ports')%outcome
  end.

Definition _generate_rules (st : driver) (ports : list port)
  : outcome (gmap string (list rule)) :=
  _generate_rules_loop st ∅ ports.

(** [self._sec_group_rules[port_id]]. *)
Definition sec_group_rules_getitem (pid : string) : M (list item) :=
  lift (fun st =>
          match _sec_group_rules st !! pid with
          | Some l => Ok l
          | None => Raise KeyError
          end).

(** A call on [self._utils]: it is logged, then returns or raises. *)
Definition invoke (c : provider_call) : M unit :=
  fun st =>
    match provider (calls st) c with
    | None => (Ok tt, record_call c st)
    | Some msg => (Raise (ProviderException msg), record_call c st)
    end.

(** Two rules are one member of a [set]: equal hashes, and [==]. *)
Definition same_member (stored x : SecurityGroupRuleR2) : bool :=
  Z.eqb (__hash__ stored) (__hash__ x) && __eq__ stored (Concrete x).

(** [set(l)]: the members, each kept at its first occurrence. *)
Fixpoint set_members
    (acc : list SecurityGroupRuleR2) (l : list SecurityGroupRuleR2)
  : list SecurityGroupRuleR2 :=
  match l with
  | [] => acc
  | x :: l' =>
      if existsb (fun s => same_member s x) acc then set_members acc l'
      else set_members (acc ++ [x]) l'
  end.

(** [list(set(l))]. *)
Definition list_set (l : list SecurityGroupRuleR2)
  : list SecurityGroupRuleR2 :=
  set_iter (set_members [] l).

(** [_add_sg_port_rules]. The yield to other green threads before the
    provider call has no counterpart here. *)
Definition _add_sg_port_rules
    (pid : string) (sg_rules : list SecurityGroupRuleR2) : M unit :=
  match sg_rules with
  | [] => ret tt
  | _ =>
      (do! old_sg_rules := sec_group_rules_getitem pid in
       invoke (create_security_rules pid sg_rules);;;
       modify (with_sec_group_rules
                 (<[pid := old_sg_rules ++ (Concrete <$> sg_rules)]>)))%driver
  end.

(** The loop [for rule in sg_rules: old_sg_rules.remove(rule)]: the list
    as the loop leaves it, and how the loop ended. *)
Fixpoint remove_each (sg_rules : list SecurityGroupRuleR2) (l : list item)
  : outcome unit * list item :=
  match sg_rules with
  | [] => (Ok tt, l)
  | r :: rest =>
      match list_remove (Concrete r) l with
      | Some l' => remove_each rest l'
      | None => (Raise ValueError, l)
      end
  end.

(** [_remove_sg_port_rules]. *)
Definition _remove_sg_port_rules
    (pid : string) (sg_rules : list SecurityGroupRuleR2) : M unit :=
  match sg_rules with
  | [] => ret tt
  | _ =>
      (do! old_sg_rules := sec_group_rules_getitem pid in
       invoke (remove_security_rules pid sg_rules);;;
       fun st =>
         let '(res, l) := remove_each sg_rules old_sg_rules in
         (res, with_sec_group_rules (<[pid := l]>) st))%driver
  end.

(** [_create_port_rules]. *)
Definition _create_port_rules (pid : string) (rules : list item) : M unit :=
  (do! sg_rules :=
     lift (fun _ => create_security_group_rules nu py_hash rules) in
   do! old_sg_rules := sec_group_rules_getitem pid in
   let '(add, rm) := compute_new_rules_add old_sg_rules sg_rules in
   _add_sg_port_rules pid (list_set add);;;
   _remove_sg_port_rules pid (list_set rm))%driver.

(** [_remove_port_rules]. *)
Definition _remove_port_rules (pid : string) (rules : list item) : M unit :=
  (do! sg_rules :=
     lift (fun _ => create_security_group_rules nu py_hash rules) in
   _remove_sg_port_rules pid (list_set sg_rules))%driver.

(** [newrules[port['id']]]. *)
Definition newrules_getitem
    (newrules : gmap string (list rule)) (pid : string) : M (list rule) :=
  lift (fun _ =>
          match newrules !! pid with
          | Some l => Ok l
          | None => Raise KeyError
          end).

(** [prepare_port_filter]. *)
Definition prepare_port_filter (port : port) : M unit :=
  (do! known := lift (fun st => Ok (_security_ports st !! device port)) in
   match known with
   | None =>
       modify (with_sec_group_rules (<[port_id port := []]>));;;
       let def_sg_rules := create_default_sg_rules nu py_hash in
       _add_sg_port_rules (port_id port) def_sg_rules;;;
       let provider_rules := security_group_rules port in
       _create_port_rules (port_id port) (Abstract <$> provider_rules)
   | Some _ => ret tt
   end;;;
   do! newrules := lift (fun st => _generate_rules st [port]) in
   do! rules := newrules_getitem newrules (port_id port) in
   _create_port_rules (port_id port) (Abstract <$> rules);;;
   modify (with_security_ports (<[device port := port]>));;;
   do! rules := newrules_getitem newrules (port_id port) in
   modify (with_sec_group_rules (<[port_id port := Abstract <$> rules]>))
  )%driver.

(** [update_port_filter]. In the comprehension of line 203 the stored
    list is looked up once per element of [added_rules[port['id']]], so
    not at all when that is empty. *)
Definition update_port_filter (port : port) : M unit :=
  (do! known := lift (fun st => Ok (_security_ports st !! device port)) in
   match known with
   | None => ret tt
   | Some old_port =>
       let old_provider_rules := security_group_rules old_port in
       let added_provider_rules := security_group_rules port in
       do! added_rules := lift (fun st => _generate_rules st [port]) in
       let new_rules :=
         filter (fun r => r ∉ old_provider_rules) added_provider_rules in
       do! added := newrules_getitem added_rules (port_id port) in
       do! fresh :=
         match added with
         | [] => ret []
         | _ =>
             do! current := sec_group_rules_getitem (port_id port) in
             ret (filter (fun r => py_in (Abstract r) current = false) added)
         end in
       let new_rules := new_rules ++ fresh in
       do! current := sec_group_rules_getitem (port_id port) in
       let remove_rules :=
         filter (fun x => py_in x (Abstract <$> added) = false) current in
       let remove_rules :=
         remove_rules
           ++ (Abstract
                 <$> filter (fun r => r ∉ added_provider_rules)
                       old_provider_rules) in
       _create_port_rules (port_id port) (Abstract <$> new_rules);;;
       _remove_port_rules (port_id old_port) remove_rules;;;
       modify (with_security_ports (<[device port := port]>));;;
       do! added := newrules_getitem added_rules (port_id port) in
       modify (with_sec_group_rules (<[port_id port := Abstract <$> added]>))
   end)%driver.

(** [remove_port_filter]. *)
Definition remove_port_filter (port : port) : M unit :=
  (modify (with_security_ports (delete (device port)));;;
   modify (with_sec_group_rules (delete (port_id port)));;;
   invoke (clear_port_sg_acls_cache (port_id port)))%driver.

End Driver.

(** A provider that never raises, host addresses rendered as single-host
    IPv4 networks, and sets iterated in insertion order: the setting of the
    worked examples. *)
Definition sample_provider
    (_ : list provider_call) (_ : provider_call) : option string := None.
Definition sample_cidr (ip : string) : outcome string := Ok (ip +:+ "/32").
Definition sample_set_iter (l : list SecurityGroupRuleR2)
  : list SecurityGroupRuleR2 := l.

(** ** Vocabulary of the statements *)

(** The tuple the constructor hashes, read back from a rule. *)
Definition hash_key (r : SecurityGroupRuleR2)
  : pyval * pyval * string * pyval * string :=
  (Direction r, Action r, LocalPort r, Protocol r, RemoteIPAddress r).

(** The attributes [__eq__] walks through, in the order of [_FIELDS]. *)
Definition compared_fields (r : SecurityGroupRuleR2)
  : pyval * pyval * string * pyval * string * bool * Z :=
  (Direction r, Action r, LocalPort r, Protocol r, RemoteIPAddress r,
   Stateful r, IdleSessionTimeout r).

(** Assignments to attributes of an instance. *)
Definition set_Weight (w : Z) (r : SecurityGroupRuleR2) : SecurityGroupRuleR2 :=
  {| Direction := Direction r;
     Action := Action r;
     LocalPort := LocalPort r;
     Protocol := Protocol r;
     RemoteIPAddress := RemoteIPAddress r;
     Stateful := Stateful r;
     IdleSessionTimeout := IdleSessionTimeout r;
     Weight := w;
     _cached_hash := _cached_hash r |}.

Definition set_IdleSessionTimeout (t : Z) (r : SecurityGroupRuleR2)
  : SecurityGroupRuleR2 :=
  {| Direction := Direction r;
     Action := Action r;
     LocalPort := LocalPort r;
     Protocol := Protocol r;
     RemoteIPAddress := RemoteIPAddress r;
     Stateful := Stateful r;
     IdleSessionTimeout := t;
     Weight := Weight r;
     _cached_hash := _cached_hash r |}.

Definition set_Stateful (b : bool) (r : SecurityGroupRuleR2)
  : SecurityGroupRuleR2 :=
  {| Direction := Direction r;
     Action := Action r;
     LocalPort := LocalPort r;
     Protocol := Protocol r;
     RemoteIPAddress := RemoteIPAddress r;
     Stateful := b;
     IdleSessionTimeout := IdleSessionTimeout r;
     Weight := Weight r;
     _cached_hash := _cached_hash r |}.

(** The test of the constructor: the protocol is one of the two ICMP
    codes. *)
Definition is_icmp_family (nu : NetworkUtils) (p : pyval) : bool :=
  bool_decide (p ∈ [_ICMP_PROTOCOL nu; _ICMPV6_PROTOCOL nu]).

(** [ACL_PROP_MAP['protocol'].values()]. *)
Definition known_protocols (nu : NetworkUtils) : list pyval :=
  [_TCP_PROTOCOL nu; _UDP_PROTOCOL nu; _ICMP_PROTOCOL nu; _ICMPV6_PROTOCOL nu].

Definition absent_or_text (o : option pyval) : bool :=
  match o with
  | None => true
  | Some (VStr _) => true
  | Some _ => false
  end.

(** A template as the control plane sends it: a direction and an ethertype
    out of the two there are, and address prefixes that are text. *)
Definition well_formed_template (r : rule) : bool :=
  bool_decide (r !! "direction" ∈ [Some (VStr "ingress"); Some (VStr "egress")])
  && bool_decide (r !! "ethertype" ∈ [Some (VStr "IPv4"); Some (VStr "IPv6")])
  && absent_or_text (r !! "source_ip_prefix")
  && absent_or_text (r !! "dest_ip_prefix").

(** The rule set the specification ascribes to a port after a lifecycle
    call, in its words: the generator over the selector's output, together
    with the generator over the port's provider rules. *)
Definition spec_applied_rule_set
    (nu : NetworkUtils)
    (py_hash : pyval * pyval * string * pyval * string -> Z)
    (ipnetwork_cidr : string -> outcome string)
    (st : driver) (p : port) : outcome (list SecurityGroupRuleR2) :=
  (try! ingress :=
     _select_sg_rules_for_port ipnetwork_cidr st p INGRESS_DIRECTION in
   try! egress :=
     _select_sg_rules_for_port ipnetwork_cidr st p EGRESS_DIRECTION in
   try! group_rules :=
     create_security_group_rules nu py_hash (Abstract <$> (ingress ++ egress)) in
   try! provider_rules :=
     create_security_group_rules nu py_hash
       (Abstract <$> security_group_rules p) in
   Ok (group_rules ++ provider_rules))%outcome.

(** Every run of [m] leaves the state related by [R] to the one it started
    in. *)
Definition frames (R : relation driver) {A} (m : M A) : Prop :=
  ∀ st, R st (m st).2.

(** What the helpers of the lifecycle leave alone: the caches and the known
    ports; the log of provider calls only grows. *)
Definition helper_frame (st st' : driver) : Prop :=
  _sg_members st' = _sg_members st
  ∧ _sg_rule_templates st' = _sg_rule_templates st
  ∧ _security_ports st' = _security_ports st
  ∧ calls st `prefix_of` calls st'.

(** The same without the known ports, for the lifecycle calls. *)
Definition lifecycle_frame (st st' : driver) : Prop :=
  _sg_members st' = _sg_members st
  ∧ _sg_rule_templates st' = _sg_rule_templates st
  ∧ calls st `prefix_of` calls st'.

(** What a lifecycle call that returns has done: the entry of the port is
    what selection yields, the port is on record, and the rest comes from a
    state [mid] the helpers reached. *)
Definition synchronized
    (ipnetwork_cidr : string -> outcome string)
    (p : port) (st st' : driver) : Prop :=
  ∃ newrules rules mid,
    _generate_rules ipnetwork_cidr st [p] = Ok newrules
    ∧ newrules !! port_id p = Some rules
    ∧ helper_frame st mid
    ∧ st' = with_sec_group_rules (<[port_id p := Abstract <$> rules]>)
              (with_security_ports (<[device p := p]>) mid).

(** ** Worked examples *)

(** A provider whose removals fail. *)
Definition flaky_provider (_ : list provider_call) (c : provider_call)
  : option string :=
  match c with
  | remove_security_rules _ _ => Some "remove failed"
  | _ => None
  end.

Definition tcp_rule : SecurityGroupRuleR2 :=
  SecurityGroupRuleR2__init__ sample_networkutils sample_hash
    (VInt 1) "80-80" (VStr "tcp") "10.0.0.2/32" (VInt 1).

Definition one_port_state : driver :=
  with_sec_group_rules (<["p1" := [Concrete tcp_rule]]>)
    HyperVSecurityGroupsDriverMixin__init__.

(** Group "A" allows tcp/80 from its own members. *)
Definition group_template : rule :=
  <["direction" := VStr "ingress"]>
    (<["ethertype" := VStr "IPv4"]>
       (<["protocol" := VStr "tcp"]>
          (<["port_range_min" := VInt 80]>
             (<["port_range_max" := VInt 80]>
                (<["remote_group_id" := VStr "A"]> ∅))))).

Definition selected_rule : rule :=
  <["security_group_id" := VStr "A"]>
    (<["source_ip_prefix" := VStr "10.0.0.2/32"]> group_template).

Definition group_members : gmap string (list string) :=
  <["IPv4" := ["10.0.0.1"; "10.0.0.2"]]> ∅.

Definition group_state : driver :=
  update_security_group_members "A" group_members
    (update_security_group_rules "A" [group_template]
       HyperVSecurityGroupsDriverMixin__init__).

Definition group_port : port :=
  {| port_id := "p1";
     device := "tap1";
     fixed_ips := ["10.0.0.1"];
     security_groups := ["A"];
     security_group_rules := [] |}.

(** The template of group "A" pointing at a group "B" whose members were
    never sent. *)
Definition unsynchronized_state : driver :=
  update_security_group_rules "A"
    [<["remote_group_id" := VStr "B"]> group_template]
    HyperVSecurityGroupsDriverMixin__init__.

(** A template with no protocol. *)
Definition any_protocol_template : rule :=
  <["direction" := VStr "ingress"]> (<["ethertype" := VStr "IPv4"]> ∅).

(** Group "web" allows ssh from anywhere; the port of the example also
    carries a provider rule for dns. *)
Definition ssh_template : rule :=
  <["direction" := VStr "ingress"]>
    (<["ethertype" := VStr "IPv4"]>
       (<["protocol" := VStr "tcp"]>
          (<["port_range_min" := VInt 22]>
             (<["port_range_max" := VInt 22]> ∅)))).

Definition dns_provider_rule : rule :=
  <["direction" := VStr "egress"]>
    (<["ethertype" := VStr "IPv4"]>
       (<["protocol" := VStr "udp"]>
          (<["port_range_min" := VInt 53]>
             (<["port_range_max" := VInt 53]> ∅)))).

Definition web_state : driver :=
  update_security_group_rules "web" [ssh_template]
    HyperVSecurityGroupsDriverMixin__init__.

Definition web_port : port :=
  {| port_id := "p1";
     device := "tap1";
     fixed_ips := ["10.0.0.5"];
     security_groups := ["web"];
     security_group_rules := [dns_provider_rule] |}.

Definition sample_prepare : port -> M unit :=
  prepare_port_filter sample_networkutils sample_hash sample_cidr
    sample_provider sample_set_iter.

Definition sample_update : port -> M unit :=
  update_port_filter sample_networkutils sample_hash sample_cidr
    sample_provider sample_set_iter.

Definition ssh_allow : SecurityGroupRuleR2 :=
  SecurityGroupRuleR2__init__ sample_networkutils sample_hash
    (VInt 1) "22-22" (VStr "tcp") "0.0.0.0/0" (VInt 1).

Definition dns_allow : SecurityGroupRuleR2 :=
  SecurityGroupRuleR2__init__ sample_networkutils sample_hash
    (VInt 2) "53-53" (VStr "udp") "0.0.0.0/0" (VInt 1).

Definition icmp_deny : SecurityGroupRuleR2 :=
  SecurityGroupRuleR2__init__ sample_networkutils sample_hash
    (VInt 1) "ANY" (VStr "1") "0.0.0.0/0" (VInt 2).


(** What a run of [old_sg_rules.remove(rule)] over the rules [done], in
    their order, makes of a list: for each rule the first element of the
    list equal to it is taken out, the others keeping their places. *)
Inductive removed_in_turn
  : list SecurityGroupRuleR2 → list item → list item → Prop :=
| removed_none l : removed_in_turn [] l l
| removed_next c done l1 y l2 new :
    (∀ z, z ∈ l1 → py_eq z (Concrete c) = false) →
    py_eq y (Concrete c) = true →
    removed_in_turn done (l1 ++ l2) new →
    removed_in_turn (c :: done) (l1 ++ y :: l2) new.
(** ** Further vocabulary and examples *)

(** [SecurityGroupRuleBase.to_dict]: the attributes named in [_FIELDS], by
    name. *)
Definition to_dict (self : SecurityGroupRuleR2) : gmap string pyval :=
  list_to_map (omap (λ f, (λ v, (f, v)) <$> getattr self f) _FIELDS).

(** The protocols [create_security_group_rule] makes rules for. *)
Definition resolved_protocols (nu : NetworkUtils) (r : rule) : list pyval :=
  if bool_decide (_get_rule_protocol nu r = VStr ACL_PROP_MAP_default)
  then known_protocols nu
  else [_get_rule_protocol nu r].

(** A template naming a protocol the table does not know. *)
Definition sctp_template : rule :=
  <["protocol" := VStr "sctp"]> any_protocol_template.

(** A template with an IPv6 host route as its source. *)
Definition host_route_template : rule :=
  <["direction" := VStr "ingress"]>
    (<["ethertype" := VStr "IPv6"]>
       (<["source_ip_prefix" := VStr "::1/128"]> ∅)).

(** * Properties *)

(** ** Rule values: equality and hashing *)

Lemma eq_compared_fields (a b : SecurityGroupRuleR2) :
  __eq__ a (Concrete b) = bool_decide (compared_fields a = compared_fields b).
Proof.
  destruct a, b. unfold __eq__, compared_fields. cbn.
  repeat case_bool_decide; simplify_eq; cbn; try reflexivity; try congruence.
Qed.

Lemma init_fields nu h d lp p ra act :
  let r := SecurityGroupRuleR2__init__ nu h d lp p ra act in
  Direction r = d ∧ Action r = act ∧ Protocol r = p ∧ RemoteIPAddress r = ra
  ∧ LocalPort r = (if is_icmp_family nu p then "" else lp)
  ∧ Stateful r
    = negb (is_icmp_family nu p)
      && negb (bool_decide (act = _ACL_ACTION_DENY nu)).
Proof.
  cbn. unfold is_icmp_family. repeat split; by destruct (bool_decide _).
Qed.

Lemma init_eq_hash_key nu h d lp p ra act d' lp' p' ra' act' :
  let a := SecurityGroupRuleR2__init__ nu h d lp p ra act in
  let b := SecurityGroupRuleR2__init__ nu h d' lp' p' ra' act' in
  __eq__ a (Concrete b) = bool_decide (hash_key a = hash_key b).
Proof.
  intros a b. rewrite eq_compared_fields. subst a b.
  unfold compared_fields, hash_key, SecurityGroupRuleR2__init__. cbn.
  repeat case_bool_decide; simplify_eq; cbn in *; try reflexivity;
    try congruence.
Qed.

(** C5, as the code has it. [__eq__] compares the seven attributes of
    [_FIELDS]: direction, action, local port, protocol and remote address,
    and also [Stateful] and [IdleSessionTimeout]. [__hash__] is the hash of
    the five values the constructor was given. [Weight] takes part in
    neither. Between two rules as the constructor builds them, equality is
    agreement on the five hashed fields, and equal rules hash alike. *)
Theorem rule_equality_and_hash nu py_hash :
  (∀ a b : SecurityGroupRuleR2,
     __eq__ a (Concrete b)
     = bool_decide (compared_fields a = compared_fields b))
  ∧ (∀ d lp p ra act,
       __hash__ (SecurityGroupRuleR2__init__ nu py_hash d lp p ra act)
       = py_hash
           (hash_key (SecurityGroupRuleR2__init__ nu py_hash d lp p ra act)))
  ∧ (∀ d lp p ra act d' lp' p' ra' act',
       __eq__ (SecurityGroupRuleR2__init__ nu py_hash d lp p ra act)
         (Concrete (SecurityGroupRuleR2__init__ nu py_hash d' lp' p' ra' act'))
       = bool_decide
           (hash_key (SecurityGroupRuleR2__init__ nu py_hash d lp p ra act)
            = hash_key
                (SecurityGroupRuleR2__init__ nu py_hash d' lp' p' ra' act')))
  ∧ (∀ (a b : SecurityGroupRuleR2) w,
       __eq__ (set_Weight w a) (Concrete b) = __eq__ a (Concrete b)
       ∧ __eq__ a (Concrete (set_Weight w b)) = __eq__ a (Concrete b)
       ∧ __hash__ (set_Weight w a) = __hash__ a).
Proof.
  split; [apply eq_compared_fields|].
  split; [reflexivity|].
  split; [intros; apply init_eq_hash_key|].
  intros a b w. rewrite !eq_compared_fields. by destruct a, b.
Qed.

(** C5, the claim refuted: a rule, and the same rule after its idle timeout
    or its stateful flag was assigned, agree on the five fields and on the
    hash, and are not equal. *)
Lemma equal_keys_unequal_rules :
  hash_key (set_IdleSessionTimeout 30 tcp_rule) = hash_key tcp_rule
  ∧ __hash__ (set_IdleSessionTimeout 30 tcp_rule) = __hash__ tcp_rule
  ∧ __eq__ tcp_rule (Concrete (set_IdleSessionTimeout 30 tcp_rule)) = false
  ∧ hash_key (set_Stateful false tcp_rule) = hash_key tcp_rule
  ∧ __hash__ (set_Stateful false tcp_rule) = __hash__ tcp_rule
  ∧ __eq__ tcp_rule (Concrete (set_Stateful false tcp_rule)) = false.
Proof. repeat split; reflexivity. Qed.

(** ** The generator *)

Lemma default_rules_unfold nu h :
  create_default_sg_rules nu h =
    d ← [_ACL_DIR_IN nu; _ACL_DIR_OUT nu];
    p ← known_protocols nu;
    a ← ["0.0.0.0/0"; "::/0"];
    [SecurityGroupRuleR2__init__ nu h d ACL_PROP_MAP_default p a
       (_ACL_ACTION_DENY nu)].
Proof. reflexivity. Qed.


(** C6, as the code has it. [create_default_sg_rules] returns 16 rules, one
    for each of 2 directions, 4 protocols and 2 ethertypes; each denies, is
    not stateful, and has the any-address of its ethertype; the local port
    is the wildcard marker on the tcp and udp rules and the empty string on
    the rules of the two ICMP protocols. *)
Theorem default_deny_rules nu py_hash :
  length (create_default_sg_rules nu py_hash) = 16
  ∧ create_default_sg_rules nu py_hash =
      (d ← [_ACL_DIR_IN nu; _ACL_DIR_OUT nu];
       p ← known_protocols nu;
       a ← table_values ACL_PROP_MAP_address_default;
       [SecurityGroupRuleR2__init__ nu py_hash d ACL_PROP_MAP_default p a
          (_ACL_ACTION_DENY nu)])
  ∧ ∀ r, r ∈ create_default_sg_rules nu py_hash →
      Action r = _ACL_ACTION_DENY nu
      ∧ Stateful r = false
      ∧ RemoteIPAddress r ∈ table_values ACL_PROP_MAP_address_default
      ∧ LocalPort r =
          (if is_icmp_family nu (Protocol r) then ""
           else ACL_PROP_MAP_default).
Proof.
  split; [reflexivity|]. split; [reflexivity|].
  intros r Hr. rewrite default_rules_unfold in Hr.
  apply list_elem_of_bind in Hr as (d & Hr & Hd).
  apply list_elem_of_bind in Hr as (p & Hr & Hp).
  apply list_elem_of_bind in Hr as (a & Hr & Ha).
  apply list_elem_of_singleton in Hr. subst r.
  destruct (init_fields nu py_hash d ACL_PROP_MAP_default p a
              (_ACL_ACTION_DENY nu)) as (_ & -> & -> & -> & -> & ->).
  rewrite bool_decide_eq_true_2 by reflexivity.
  rewrite andb_false_r. done.
Qed.

(** C6, the claim refuted: the default rule for icmp is among the sixteen,
    and its local port is not the wildcard marker. *)
Lemma default_icmp_rule_has_empty_port :
  icmp_deny ∈ create_default_sg_rules sample_networkutils sample_hash
  ∧ Protocol icmp_deny = _ICMP_PROTOCOL sample_networkutils
  ∧ LocalPort icmp_deny = ""
  ∧ LocalPort icmp_deny ≠ ACL_PROP_MAP_default.
Proof.
  split; [|by repeat split].
  apply list_elem_of_In. vm_compute. tauto.
Qed.

Lemma well_formed_direction r :
  well_formed_template r = true →
  ∃ d, d ∈ table_keys DIRECTION_IP_PREFIX ∧ r !! "direction" = Some (VStr d).
Proof.
  unfold well_formed_template. rewrite !andb_true_iff.
  intros [[[Hd _] _] _]. apply bool_decide_eq_true_1 in Hd.
  apply list_elem_of_In in Hd. cbn in Hd.
  destruct Hd as [<-|[<-|[]]]; eexists; (split; [|reflexivity]);
    repeat constructor.
Qed.

Lemma remote_address_is_text r :
  well_formed_template r = true →
  ∃ s, _get_rule_remote_address r = Ok (VStr s).
Proof.
  intros Hwf. destruct (well_formed_direction r Hwf) as (d & _ & Hdir).
  unfold well_formed_template in Hwf. rewrite !andb_true_iff in Hwf.
  destruct Hwf as [[[_ He] Hs] Hdst]. apply bool_decide_eq_true_1 in He.
  unfold _get_rule_remote_address, getitem. rewrite Hdir. cbn.
  assert (Hdefault : ∃ s,
    (try! ethertype := match r !! "ethertype" with
                       | Some v => Ok v
                       | None => Raise KeyError
                       end in
     try! a := table_getitem ACL_PROP_MAP_address_default ethertype in
     Ok (VStr a))%outcome = Ok (VStr s)).
  { apply list_elem_of_In in He. cbn in He.
    destruct He as [<-|[<-|[]]]; cbn; eauto. }
  case_bool_decide.
  - destruct (r !! "source_ip_prefix") as [[]|]; try done; eauto.
  - destruct (r !! "dest_ip_prefix") as [[]|]; try done; eauto.
Qed.

(** C7. A well-formed template with no protocol yields four rules, one for
    each protocol of the table and in its order; none of them carries the
    wildcard marker as its protocol, given that the marker is not one of
    the library's protocol codes; the rules of the two ICMP protocols are
    not stateful and have an empty local port. *)
Theorem wildcard_protocol_expansion nu py_hash (r : rule) :
  well_formed_template r = true →
  r !! "protocol" = None →
  VStr ACL_PROP_MAP_default ∉ known_protocols nu →
  ∃ rules,
    create_security_group_rule nu py_hash (Abstract r) = Ok rules
    ∧ length rules = 4
    ∧ Protocol <$> rules = known_protocols nu
    ∧ (∀ c, c ∈ rules → Protocol c ≠ VStr ACL_PROP_MAP_default)
    ∧ (∀ c, c ∈ rules → is_icmp_family nu (Protocol c) = true →
            Stateful c = false ∧ LocalPort c = "").
Proof.
  intros Hwf Hproto Hany.
  destruct (remote_address_is_text r Hwf) as [ra Hra].
  destruct (well_formed_direction r Hwf) as (d & Hd & Hdir).
  assert (∃ code, table_getitem (ACL_PROP_MAP_direction nu) (VStr d) = Ok code)
    as [code Hcode].
  { apply list_elem_of_In in Hd. cbn in Hd.
    destruct Hd as [<-|[<-|[]]]; cbn; eauto. }
  exists ((λ p, SecurityGroupRuleR2__init__ nu py_hash code
                  (_get_rule_port_range r) p
                  (split_first "/128" ra) (_ACL_ACTION_ALLOW nu))
            <$> known_protocols nu).
  split.
  { unfold create_security_group_rule, getitem. rewrite Hdir. cbn.
    rewrite Hcode. cbn. rewrite Hra. cbn.
    unfold _get_rule_protocol, _get_rule_prop_or_default. rewrite Hproto.
    reflexivity. }
  split; [reflexivity|]. split; [reflexivity|]. split.
  - intros c Hc. apply list_elem_of_fmap in Hc as (p & -> & Hp).
    cbn. intros ->. contradiction.
  - intros c Hc Hicmp. apply list_elem_of_fmap in Hc as (p & -> & Hp).
    destruct (init_fields nu py_hash code (_get_rule_port_range r) p
                (split_first "/128" ra) (_ACL_ACTION_ALLOW nu))
      as (_ & _ & Pp & _ & -> & ->).
    rewrite Pp in Hicmp. rewrite Hicmp. done.
Qed.

Lemma wildcard_protocol_expansion_witness :
  ∃ rules,
    create_security_group_rule sample_networkutils sample_hash
      (Abstract any_protocol_template) = Ok rules
    ∧ length rules = 4
    ∧ Protocol <$> rules = known_protocols sample_networkutils
    ∧ (∀ c, c ∈ rules → Protocol c ≠ VStr ACL_PROP_MAP_default)
    ∧ (∀ c, c ∈ rules →
            is_icmp_family sample_networkutils (Protocol c) = true →
            Stateful c = false ∧ LocalPort c = "").
Proof.
  apply (wildcard_protocol_expansion sample_networkutils sample_hash
           any_protocol_template).
  - vm_compute. reflexivity.
  - vm_compute. reflexivity.
  - intros H. apply list_elem_of_In in H. vm_compute in H. intuition discriminate.
Defined.

(** ** The selector *)

Lemma group_template_fields :
  getitem group_template "direction" = Ok (VStr "ingress")
  ∧ group_template !! "remote_group_id" = Some (VStr "A")
  ∧ getitem group_template "ethertype" = Ok (VStr "IPv4").
Proof. by vm_compute. Qed.

Lemma selected_rule_fields :
  getitem selected_rule "direction" = Ok (VStr "ingress")
  ∧ selected_rule !! "source_ip_prefix" = Some (VStr "10.0.0.2/32")
  ∧ selected_rule !! "port_range_min" = Some (VInt 80)
  ∧ selected_rule !! "port_range_max" = Some (VInt 80)
  ∧ selected_rule !! "protocol" = Some (VStr "tcp").
Proof. by vm_compute. Qed.

(** C9. Group "A" allows tcp/80 from its own members 10.0.0.1 and
    10.0.0.2; for a port of the group with the address 10.0.0.1 the
    selector emits one rule, with source prefix 10.0.0.2/32, and the
    generator turns it into one rule: inbound, allow, 80-80, tcp,
    10.0.0.2/32, stateful. What is assumed of the two libraries: the host
    address renders as 10.0.0.2/32, the tcp code is neither the wildcard
    marker nor an ICMP code, and allow is not deny. *)
Theorem self_exclusion_example nu py_hash ipnetwork_cidr st p members :
  _sg_rule_templates st !! "A" = Some [group_template] →
  _sg_members st !! "A" = Some members →
  members !! "IPv4" = Some ["10.0.0.1"; "10.0.0.2"] →
  fixed_ips p = ["10.0.0.1"] →
  security_groups p = ["A"] →
  ipnetwork_cidr "10.0.0.2" = Ok "10.0.0.2/32" →
  _TCP_PROTOCOL nu ≠ VStr ACL_PROP_MAP_default →
  _TCP_PROTOCOL nu ∉ [_ICMP_PROTOCOL nu; _ICMPV6_PROTOCOL nu] →
  _ACL_ACTION_ALLOW nu ≠ _ACL_ACTION_DENY nu →
  _select_sg_rules_for_port ipnetwork_cidr st p INGRESS_DIRECTION
  = Ok [selected_rule]
  ∧ selected_rule !! "source_ip_prefix" = Some (VStr "10.0.0.2/32")
  ∧ create_security_group_rule nu py_hash (Abstract selected_rule)
    = Ok [ {| Direction := _ACL_DIR_IN nu;
              Action := _ACL_ACTION_ALLOW nu;
              LocalPort := "80-80";
              Protocol := _TCP_PROTOCOL nu;
              RemoteIPAddress := "10.0.0.2/32";
              Stateful := true;
              IdleSessionTimeout := 0;
              Weight := 65500;
              _cached_hash :=
                py_hash (_ACL_DIR_IN nu, _ACL_ACTION_ALLOW nu, "80-80",
                         _TCP_PROTOCOL nu, "10.0.0.2/32") |} ].
Proof.
  intros Htemplates Hgroup Hmembers Hfixed Hsgs Hcidr Hany Hicmp Hcodes.
  destruct group_template_fields as (Hd & Hr & He).
  destruct selected_rule_fields as (Hd' & Hp & Hlo & Hhi & Hproto).
  split; [|split; [exact Hp|]].
  - unfold _select_sg_rules_for_port. rewrite Hsgs, Hfixed.
    cbn [flat_mapM]. rewrite Htemplates.
    cbn [default from_option id flat_mapM obind].
    rewrite Hd. cbn [obind]. rewrite bool_decide_eq_false_2 by (by intros []).
    rewrite Hr. cbn [default from_option id truthy negb String.eqb].
    rewrite He. cbn [obind cache_getitem]. rewrite Hgroup. cbn [obind].
    rewrite Hmembers. cbn [obind flat_mapM].
    rewrite bool_decide_eq_true_2 by (by left).
    rewrite bool_decide_eq_false_2 by (by intros ?%list_elem_of_singleton).
    cbn [obind app]. rewrite Hcidr. reflexivity.
  - unfold create_security_group_rule, _get_rule_port_range,
      _get_rule_remote_address, _get_rule_protocol, _get_rule_prop_or_default.
    rewrite Hd', Hlo, Hhi, Hproto. cbn [obind].
    rewrite bool_decide_eq_true_2 by done. rewrite Hp. cbn.
    rewrite bool_decide_eq_false_2 by done. cbn.
    unfold SecurityGroupRuleR2__init__.
    rewrite (bool_decide_eq_false_2 _ Hicmp).
    rewrite bool_decide_eq_false_2 by done. reflexivity.
Qed.

Lemma self_exclusion_example_witness :
  _select_sg_rules_for_port sample_cidr group_state group_port
    INGRESS_DIRECTION
  = Ok [selected_rule]
  ∧ selected_rule !! "source_ip_prefix" = Some (VStr "10.0.0.2/32")
  ∧ create_security_group_rule sample_networkutils sample_hash
      (Abstract selected_rule)
    = Ok [ {| Direction := VInt 1;
              Action := VInt 1;
              LocalPort := "80-80";
              Protocol := VStr "tcp";
              RemoteIPAddress := "10.0.0.2/32";
              Stateful := true;
              IdleSessionTimeout := 0;
              Weight := 65500;
              _cached_hash :=
                sample_hash (VInt 1, VInt 1, "80-80", VStr "tcp",
                             "10.0.0.2/32") |} ].
Proof.
  apply (self_exclusion_example sample_networkutils sample_hash sample_cidr
           group_state group_port group_members).
  - vm_compute. reflexivity.
  - vm_compute. reflexivity.
  - vm_compute. reflexivity.
  - reflexivity.
  - reflexivity.
  - reflexivity.
  - discriminate.
  - intros H. apply list_elem_of_In in H. vm_compute in H.
    intuition discriminate.
  - discriminate.
Defined.

(** C4, the code at the failing input. A template of an attached group
    names a remote group whose members were never cached: the lookup of the
    members raises [KeyError], for the selector and so for
    [prepare_port_filter]. The lookup of the templates of a group that was
    never cached does yield nothing, for any driver and port. *)
Theorem missing_remote_group_raises ipnetwork_cidr :
  _select_sg_rules_for_port ipnetwork_cidr unsynchronized_state group_port
    INGRESS_DIRECTION
  = Raise KeyError
  ∧ (prepare_port_filter sample_networkutils sample_hash ipnetwork_cidr
       sample_provider sample_set_iter group_port unsynchronized_state).1
    = Raise KeyError
  ∧ ∀ st p direction,
      Forall (λ sg_id, _sg_rule_templates st !! sg_id = None)
        (security_groups p) →
      _select_sg_rules_for_port ipnetwork_cidr st p direction = Ok [].
Proof.
  split; [by vm_compute|]. split; [by vm_compute|].
  intros st p direction Hnone. unfold _select_sg_rules_for_port.
  induction Hnone as [|sg_id sgs Hsg _ IH]; [done|].
  cbn [flat_mapM]. rewrite Hsg. cbn. by rewrite IH.
Qed.

(** ** The lifecycle monad *)

Lemma bind_Ok {A B} (m : M A) (k : A → M B) st b st' :
  bind m k st = (Ok b, st') →
  ∃ a st1, m st = (Ok a, st1) ∧ k a st1 = (Ok b, st').
Proof.
  unfold bind. destruct (m st) as [[a|e] st1]; [eauto|discriminate].
Qed.

Lemma lift_Ok {A} (f : driver → outcome A) st a st' :
  lift f st = (Ok a, st') → f st = Ok a ∧ st' = st.
Proof. unfold lift. intros [= -> ->]. done. Qed.

Lemma modify_Ok f st u st' : modify f st = (Ok u, st') → st' = f st.
Proof. by intros [= <-]. Qed.

Lemma newrules_getitem_Ok newrules pid st rules st' :
  newrules_getitem newrules pid st = (Ok rules, st') →
  newrules !! pid = Some rules ∧ st' = st.
Proof.
  unfold newrules_getitem. intros H. apply lift_Ok in H as [H ->].
  destruct (newrules !! pid); by simplify_eq.
Qed.

Lemma bind_lift {A B} (f : driver → outcome A) (k : A → M B) st a :
  f st = Ok a → bind (lift f) k st = k a st.
Proof. intros H. unfold bind, lift. by rewrite H. Qed.

Lemma bind_modify {B} (f : driver → driver) (k : unit → M B) st :
  bind (modify f) k st = k tt (f st).
Proof. reflexivity. Qed.

Lemma bind_getitem {B} pid (k : list item → M B) st l :
  _sec_group_rules st !! pid = Some l →
  bind (sec_group_rules_getitem pid) k st = k l st.
Proof. intros H. apply bind_lift. by rewrite H. Qed.

Section Frames.

Context (R : relation driver) `{!PreOrder R}.

Lemma frames_ret {A} (a : A) : frames R (ret a).
Proof. intros st. reflexivity. Qed.

Lemma frames_lift {A} (f : driver → outcome A) : frames R (lift f).
Proof. intros st. reflexivity. Qed.

Lemma frames_bind {A B} (m : M A) (k : A → M B) :
  frames R m → (∀ a, frames R (k a)) → frames R (bind m k).
Proof.
  intros Hm Hk st. unfold bind. specialize (Hm st).
  destruct (m st) as [[a|e] st1]; cbn in *; [|done].
  etrans; [exact Hm|apply Hk].
Qed.

Lemma frames_modify (f : driver → driver) :
  (∀ st, R st (f st)) → frames R (modify f).
Proof. intros Hf st. apply Hf. Qed.

End Frames.

Lemma run_frames (R : relation driver) {A} (m : M A) st r st' :
  frames R m → m st = (r, st') → R st st'.
Proof. intros Hm Hrun. specialize (Hm st). by rewrite Hrun in Hm. Qed.

#[local] Instance helper_frame_preorder : PreOrder helper_frame.
Proof.
  split.
  - intros st. by repeat split.
  - intros a b c (? & ? & ? & ?) (? & ? & ? & ?).
    repeat split; try congruence. by etrans.
Qed.

#[local] Instance lifecycle_frame_preorder : PreOrder lifecycle_frame.
Proof.
  split.
  - intros st. by repeat split.
  - intros a b c (? & ? & ?) (? & ? & ?).
    repeat split; try congruence. by etrans.
Qed.

Lemma helper_lifecycle_frame {A} (m : M A) :
  frames helper_frame m → frames lifecycle_frame m.
Proof. intros H st. destruct (H st) as (? & ? & ? & ?). by repeat split. Qed.

(** ** Batches sent to the provider *)

Section Batches.

Context (nu : NetworkUtils).
Context (py_hash : pyval * pyval * string * pyval * string → Z).
Context (provider : list provider_call → provider_call → option string).
Context (set_iter : list SecurityGroupRuleR2 → list SecurityGroupRuleR2).

Lemma frames_rules_update f :
  frames helper_frame (modify (with_sec_group_rules f)).
Proof. apply (frames_modify helper_frame). intros st. by repeat split. Qed.

Lemma frames_invoke c : frames helper_frame (invoke provider c).
Proof.
  intros st. unfold invoke.
  destruct (provider (calls st) c); cbn; repeat split; by apply prefix_app_r.
Qed.

Lemma frames_add pid sg_rules :
  frames helper_frame (_add_sg_port_rules provider pid sg_rules).
Proof.
  unfold _add_sg_port_rules.
  destruct sg_rules; [apply (frames_ret helper_frame)|].
  apply (frames_bind helper_frame);
    [apply (frames_lift helper_frame)|intros old].
  apply (frames_bind helper_frame); [apply frames_invoke|intros _].
  apply frames_rules_update.
Qed.

Lemma frames_remove pid sg_rules :
  frames helper_frame (_remove_sg_port_rules provider pid sg_rules).
Proof.
  unfold _remove_sg_port_rules.
  destruct sg_rules; [apply (frames_ret helper_frame)|].
  apply (frames_bind helper_frame);
    [apply (frames_lift helper_frame)|intros old].
  apply (frames_bind helper_frame); [apply frames_invoke|intros _].
  intros st. destruct (remove_each _ _). by repeat split.
Qed.

Lemma frames_create_port_rules pid rules :
  frames helper_frame
    (_create_port_rules nu py_hash provider set_iter pid rules).
Proof.
  unfold _create_port_rules.
  apply (frames_bind helper_frame);
    [apply (frames_lift helper_frame)|intros sg_rules].
  apply (frames_bind helper_frame);
    [apply (frames_lift helper_frame)|intros old].
  cbn. apply (frames_bind helper_frame); [apply frames_add|intros _].
  apply frames_remove.
Qed.

Lemma frames_remove_port_rules pid rules :
  frames helper_frame
    (_remove_port_rules nu py_hash provider set_iter pid rules).
Proof.
  unfold _remove_port_rules.
  apply (frames_bind helper_frame);
    [apply (frames_lift helper_frame)|intros sg_rules].
  apply frames_remove.
Qed.

(** One run of [_add_sg_port_rules] on a batch that is not empty. *)
Lemma add_run pid batch old st :
  batch ≠ [] →
  _sec_group_rules st !! pid = Some old →
  _add_sg_port_rules provider pid batch st =
    let c := create_security_rules pid batch in
    match provider (calls st) c with
    | Some msg => (Raise (ProviderException msg), record_call c st)
    | None =>
        (Ok tt,
         with_sec_group_rules (<[pid := old ++ (Concrete <$> batch)]>)
           (record_call c st))
    end.
Proof.
  intros Hne Hold. unfold _add_sg_port_rules.
  destruct batch as [|r batch]; [done|].
  rewrite (bind_getitem _ _ _ _ Hold). unfold bind, invoke. cbn.
  by destruct (provider _ _).
Qed.

(** One run of [_remove_sg_port_rules] on a batch that is not empty. *)
Lemma remove_run pid batch old st :
  batch ≠ [] →
  _sec_group_rules st !! pid = Some old →
  _remove_sg_port_rules provider pid batch st =
    let c := remove_security_rules pid batch in
    match provider (calls st) c with
    | Some msg => (Raise (ProviderException msg), record_call c st)
    | None =>
        ((remove_each batch old).1,
         with_sec_group_rules (<[pid := (remove_each batch old).2]>)
           (record_call c st))
    end.
Proof.
  intros Hne Hold. unfold _remove_sg_port_rules.
  destruct batch as [|r batch]; [done|].
  rewrite (bind_getitem _ _ _ _ Hold). unfold bind, invoke. cbn zeta.
  destruct (provider _ _); [done|].
  by destruct (remove_each _ _).
Qed.

(** The state a bind hands to its continuation is on the way to the state
    it ends in. *)
Lemma calls_bind_prefix {A B} (m : M A) (k : A → M B) st :
  (∀ a, frames lifecycle_frame (k a)) →
  calls (m st).2 `prefix_of` calls (bind m k st).2.
Proof.
  intros Hk. unfold bind. destruct (m st) as [[a|e] st1]; cbn; [|done].
  apply Hk.
Qed.

End Batches.

(** C10. With an empty batch, [_add_sg_port_rules] and
    [_remove_sg_port_rules] return at once: nothing is asked of the
    provider and the driver is as it was, whatever the port id. *)
Theorem empty_batch_returns_at_once provider pid st :
  _add_sg_port_rules provider pid [] st = (Ok tt, st)
  ∧ _remove_sg_port_rules provider pid [] st = (Ok tt, st).
Proof. split; reflexivity. Qed.

(** [list.remove]: the first equal element goes, or there is none. *)
Lemma list_remove_first x l l' :
  list_remove x l = Some l' →
  ∃ l1 y l2,
    l = l1 ++ y :: l2
    ∧ (∀ z, z ∈ l1 → py_eq z x = false)
    ∧ py_eq y x = true
    ∧ l' = l1 ++ l2.
Proof.
  revert l'. induction l as [|y l IH]; intros l' Hrm; [done|].
  cbn [list_remove] in Hrm. destruct (py_eq y x) eqn:Hy.
  - injection Hrm as <-. exists [], y, l. split; [done|].
    split; [|done]. intros z Hz. by apply not_elem_of_nil in Hz.
  - destruct (list_remove x l) as [r|] eqn:Hl; [|done].
    injection Hrm as <-.
    destruct (IH r eq_refl) as (l1 & y' & l2 & -> & Hl1 & Hy' & ->).
    exists (y :: l1), y', l2. split; [done|]. split; [|done].
    intros z Hz. apply elem_of_cons in Hz as [->|Hz]; [done|by apply Hl1].
Qed.

Lemma list_remove_absent x l :
  list_remove x l = None → ∀ z, z ∈ l → py_eq z x = false.
Proof.
  induction l as [|y l IH]; intros Hrm z Hz;
    [by apply not_elem_of_nil in Hz|].
  cbn [list_remove] in Hrm. destruct (py_eq y x) eqn:Hy; [done|].
  destruct (list_remove x l); [done|].
  apply elem_of_cons in Hz as [->|Hz]; [done|by apply IH].
Qed.

Lemma list_remove_at x l1 y l2 :
  (∀ z, z ∈ l1 → py_eq z x = false) →
  py_eq y x = true →
  list_remove x (l1 ++ y :: l2) = Some (l1 ++ l2).
Proof.
  intros Hl1 Hy. induction l1 as [|z l1 IH].
  - cbn [app list_remove]. by rewrite Hy.
  - cbn [app list_remove]. rewrite (Hl1 z) by left.
    rewrite IH; [done|]. intros z' Hz'. apply Hl1. by right.
Qed.

(** The loop of [_remove_sg_port_rules] over a batch: it takes the rules
    out in turn, and stops with [ValueError] at the first rule that has no
    equal element in what is left of the list. *)
Lemma remove_each_in_turn batch old :
  ∃ done,
    removed_in_turn done old (remove_each batch old).2
    ∧ (((remove_each batch old).1 = Ok tt ∧ done = batch)
       ∨ ∃ c rest,
           (remove_each batch old).1 = Raise ValueError
           ∧ batch = done ++ c :: rest
           ∧ ∀ x, x ∈ (remove_each batch old).2 →
                  py_eq x (Concrete c) = false).
Proof.
  revert old. induction batch as [|c batch IH]; intros old.
  - exists []. split; [constructor|by left].
  - cbn [remove_each].
    destruct (list_remove (Concrete c) old) as [l'|] eqn:Hrm.
    + destruct (list_remove_first _ _ _ Hrm) as (l1 & y & l2 & -> & Hl1 & Hy & ->).
      destruct (IH (l1 ++ l2)) as (done & Hturn & Hout).
      exists (c :: done). split; [by constructor|].
      destruct Hout as [[Hok ->]|(c' & rest & Hraise & -> & Hnone)];
        [by left|].
      right. by exists c', rest.
    + exists []. split; [constructor|]. right. exists c, batch.
      split; [done|]. split; [done|]. by apply list_remove_absent.
Qed.

(** A list the rules were taken out of is the old list less one element
    for each rule, in the old order; and running the loop on the rules
    taken out gives that list. *)
Lemma removed_in_turn_sublist done old new :
  removed_in_turn done old new →
  new `sublist_of` old ∧ length old = length done + length new.
Proof.
  induction 1 as [l|c done l1 y l2 new _ _ _ [IHs IHl]]; [done|].
  split.
  - etrans; [exact IHs|]. apply sublist_app; [done|by apply sublist_cons].
  - rewrite length_app in IHl |- *. cbn [length]. lia.
Qed.

Lemma removed_in_turn_run done old new :
  removed_in_turn done old new → remove_each done old = (Ok tt, new).
Proof.
  induction 1 as [l|c done l1 y l2 new Hl1 Hy _ IH]; [done|].
  cbn [remove_each]. by rewrite list_remove_at.
Qed.

(** C3. For a batch that is not empty, on a port that has a list: the
    provider is called once; when that call raises, the same exception
    reaches the caller and the bookkeeping is what it was before the call;
    when it returns, an add batch is appended to the list, and the rules of
    a remove batch are taken out of the list in turn, for each rule the
    first element equal to it. The removal returns when every rule of the
    batch had such an element, the list then being shorter by the length
    of the batch; at the first rule that has none it raises [ValueError],
    and the rules before that one stay removed. *)
Theorem batch_bookkeeping_follows_provider provider pid batch old st :
  batch ≠ [] →
  _sec_group_rules st !! pid = Some old →
  (calls (_add_sg_port_rules provider pid batch st).2
   = calls st ++ [create_security_rules pid batch]
   ∧ match provider (calls st) (create_security_rules pid batch) with
     | Some msg =>
         (_add_sg_port_rules provider pid batch st).1
         = Raise (ProviderException msg)
         ∧ bookkeeping (_add_sg_port_rules provider pid batch st).2
           = bookkeeping st
     | None =>
         (_add_sg_port_rules provider pid batch st).1 = Ok tt
         ∧ _sec_group_rules (_add_sg_port_rules provider pid batch st).2
           = <[pid := old ++ (Concrete <$> batch)]> (_sec_group_rules st)
     end)
  ∧ (calls (_remove_sg_port_rules provider pid batch st).2
     = calls st ++ [remove_security_rules pid batch]
     ∧ match provider (calls st) (remove_security_rules pid batch) with
       | Some msg =>
           (_remove_sg_port_rules provider pid batch st).1
           = Raise (ProviderException msg)
           ∧ bookkeeping (_remove_sg_port_rules provider pid batch st).2
             = bookkeeping st
       | None =>
           ∃ done new,
             _sec_group_rules (_remove_sg_port_rules provider pid batch st).2
             = <[pid := new]> (_sec_group_rules st)
             ∧ removed_in_turn done old new
             ∧ new `sublist_of` old
             ∧ length old = length done + length new
             ∧ (((_remove_sg_port_rules provider pid batch st).1 = Ok tt
                 ∧ done = batch)
                ∨ ∃ c rest,
                    (_remove_sg_port_rules provider pid batch st).1
                    = Raise ValueError
                    ∧ batch = done ++ c :: rest
                    ∧ ∀ x, x ∈ new → py_eq x (Concrete c) = false)
       end).
Proof.
  intros Hne Hold. split.
  - rewrite (add_run provider pid batch old st Hne Hold). cbn zeta.
    destruct (provider _ _); done.
  - rewrite (remove_run provider pid batch old st Hne Hold). cbn zeta.
    destruct (provider _ _); [done|]. split; [done|].
    destruct (remove_each_in_turn batch old) as (done & Hturn & Hout).
    destruct (removed_in_turn_sublist _ _ _ Hturn) as [Hsub Hlen].
    exists done, (remove_each batch old).2. by repeat split.
Qed.

Lemma batch_bookkeeping_follows_provider_witness :
  ((_add_sg_port_rules flaky_provider "p1" [tcp_rule] one_port_state).1
   = Ok tt
   ∧ _sec_group_rules
       (_add_sg_port_rules flaky_provider "p1" [tcp_rule] one_port_state).2
     = <["p1" := [Concrete tcp_rule; Concrete tcp_rule]]>
         (_sec_group_rules one_port_state))
  ∧ ((_remove_sg_port_rules flaky_provider "p1" [tcp_rule]
        one_port_state).1
     = Raise (ProviderException "remove failed")
     ∧ bookkeeping
         (_remove_sg_port_rules flaky_provider "p1" [tcp_rule]
            one_port_state).2
       = bookkeeping one_port_state)
  ∧ ((_remove_sg_port_rules sample_provider "p1" [tcp_rule]
        one_port_state).1
     = Ok tt
     ∧ _sec_group_rules
         (_remove_sg_port_rules sample_provider "p1" [tcp_rule]
            one_port_state).2
       = <["p1" := []]> (_sec_group_rules one_port_state))
  ∧ ((_remove_sg_port_rules sample_provider "p1" [tcp_rule; dns_allow]
        one_port_state).1
     = Raise ValueError
     ∧ _sec_group_rules
         (_remove_sg_port_rules sample_provider "p1" [tcp_rule; dns_allow]
            one_port_state).2
       = <["p1" := []]> (_sec_group_rules one_port_state)).
Proof.
  assert (Hold : _sec_group_rules one_port_state !! "p1"
                 = Some [Concrete tcp_rule]) by reflexivity.
  assert (Hsame : py_eq (Concrete tcp_rule) (Concrete tcp_rule) = true)
    by reflexivity.
  assert (Hone : ∀ new,
            removed_in_turn [tcp_rule] [Concrete tcp_rule] new → new = []).
  { intros new Hturn. apply removed_in_turn_run in Hturn.
    injection Hturn as <-. reflexivity. }
  split; [|split; [|split]].
  - destruct (batch_bookkeeping_follows_provider
                flaky_provider "p1" [tcp_rule] [Concrete tcp_rule]
                one_port_state ltac:(discriminate) Hold)
      as ((_ & Hadd & Hlist) & _).
    split; assumption.
  - destruct (batch_bookkeeping_follows_provider
                flaky_provider "p1" [tcp_rule] [Concrete tcp_rule]
                one_port_state ltac:(discriminate) Hold)
      as (_ & (_ & Hrm & Hbk)).
    split; assumption.
  - destruct (batch_bookkeeping_follows_provider
                sample_provider "p1" [tcp_rule] [Concrete tcp_rule]
                one_port_state ltac:(discriminate) Hold)
      as (_ & (_ & done & new & Hlist & Hturn & _ & _ & Hout)).
    destruct Hout as [[Hok ->]|(c & rest & _ & Hsplit & Hnone)].
    + apply Hone in Hturn. subst new. split; assumption.
    + destruct done as [|d [|d' done]]; try discriminate Hsplit.
      injection Hsplit as <- _. apply removed_in_turn_run in Hturn.
      injection Hturn as <-.
      rewrite (Hnone (Concrete tcp_rule)) in Hsame by left.
      discriminate Hsame.
  - destruct (batch_bookkeeping_follows_provider
                sample_provider "p1" [tcp_rule; dns_allow]
                [Concrete tcp_rule] one_port_state ltac:(discriminate) Hold)
      as (_ & (_ & done & new & Hlist & Hturn & _ & Hlen & Hout)).
    destruct Hout as [[_ ->]|(c & rest & Hraise & Hsplit & Hnone)];
      [discriminate Hlen|].
    destruct done as [|d [|d' done]].
    + injection Hsplit as <- _. apply removed_in_turn_run in Hturn.
      injection Hturn as <-.
      rewrite (Hnone (Concrete tcp_rule)) in Hsame by left.
      discriminate Hsame.
    + injection Hsplit as <- _. apply Hone in Hturn. subst new.
      split; assumption.
    + discriminate Hlen.
Defined.

(** ** The lifecycle *)

Ltac frames_step :=
  first
    [ apply (frames_ret lifecycle_frame)
    | apply (frames_lift lifecycle_frame)
    | apply helper_lifecycle_frame;
      first [ apply frames_create_port_rules
            | apply frames_remove_port_rules
            | apply frames_add
            | apply frames_remove
            | apply frames_rules_update ]
    | apply (frames_modify lifecycle_frame); intros ?; by repeat split
    | apply (frames_bind lifecycle_frame); [|intros ?] ].

Section Selection.

Context (ipnetwork_cidr : string → outcome string).

(** Selection reads the two caches and nothing else of the driver. *)
Lemma select_reads_caches st st' p direction :
  _sg_members st' = _sg_members st →
  _sg_rule_templates st' = _sg_rule_templates st →
  _select_sg_rules_for_port ipnetwork_cidr st' p direction
  = _select_sg_rules_for_port ipnetwork_cidr st p direction.
Proof.
  intros Hm Ht. unfold _select_sg_rules_for_port. by rewrite Hm, Ht.
Qed.

Lemma generate_rules_reads_caches st st' ports :
  _sg_members st' = _sg_members st →
  _sg_rule_templates st' = _sg_rule_templates st →
  _generate_rules ipnetwork_cidr st' ports
  = _generate_rules ipnetwork_cidr st ports.
Proof.
  intros Hm Ht. unfold _generate_rules.
  generalize (∅ : gmap string (list rule)).
  induction ports as [|p ports IH]; intros acc; [done|].
  cbn. rewrite !(select_reads_caches st st') by done.
  destruct (_select_sg_rules_for_port _ st p INGRESS_DIRECTION); [|done].
  destruct (_select_sg_rules_for_port _ st p EGRESS_DIRECTION); [|done].
  cbn. apply IH.
Qed.

(** [_generate_rules] on one port. *)
Lemma generate_rules_one st p newrules :
  _generate_rules ipnetwork_cidr st [p] = Ok newrules →
  ∃ ingress egress,
    _select_sg_rules_for_port ipnetwork_cidr st p INGRESS_DIRECTION
    = Ok ingress
    ∧ _select_sg_rules_for_port ipnetwork_cidr st p EGRESS_DIRECTION
      = Ok egress
    ∧ newrules !! port_id p = Some (ingress ++ egress).
Proof.
  unfold _generate_rules. cbn.
  destruct (_select_sg_rules_for_port _ st p INGRESS_DIRECTION)
    as [ingress|]; [|done].
  destruct (_select_sg_rules_for_port _ st p EGRESS_DIRECTION)
    as [egress|]; [|done].
  cbn. intros [= <-]. exists ingress, egress.
  by rewrite lookup_insert_eq.
Qed.

End Selection.

Lemma filter_none {A} (P : A → Prop) `{!∀ x, Decision (P x)} (l : list A) :
  (∀ x, x ∈ l → ¬ P x) → filter P l = [].
Proof.
  induction l as [|x l IH]; intros Hall; [done|].
  rewrite filter_cons_False by (apply Hall; left).
  apply IH. intros y Hy. apply Hall. by right.
Qed.

Lemma py_eq_dict_refl r : py_eq (Abstract r) (Abstract r) = true.
Proof. cbn. by apply bool_decide_eq_true_2. Qed.

Lemma py_in_dict r (l : list rule) :
  r ∈ l → py_in (Abstract r) (Abstract <$> l) = true.
Proof.
  intros Hr. unfold py_in. apply existsb_exists. exists (Abstract r).
  split; [|apply py_eq_dict_refl].
  apply list_elem_of_In. by apply list_elem_of_fmap_2.
Qed.

Section Lifecycle.

Context (nu : NetworkUtils).
Context (py_hash : pyval * pyval * string * pyval * string → Z).
Context (ipnetwork_cidr : string → outcome string).
Context (provider : list provider_call → provider_call → option string).
Context (set_iter : list SecurityGroupRuleR2 → list SecurityGroupRuleR2).

#[local] Abbreviation prepare :=
  (prepare_port_filter nu py_hash ipnetwork_cidr provider set_iter).
#[local] Abbreviation update :=
  (update_port_filter nu py_hash ipnetwork_cidr provider set_iter).

Lemma frames_prepare p : frames lifecycle_frame (prepare p).
Proof.
  unfold prepare_port_filter, newrules_getitem.
  frames_step; [frames_step|]. frames_step.
  { destruct a; repeat frames_step. }
  repeat frames_step.
Qed.

Lemma frames_update p : frames lifecycle_frame (update p).
Proof.
  unfold update_port_filter, newrules_getitem, sec_group_rules_getitem.
  frames_step; [frames_step|]. destruct a; [|frames_step].
  do 2 (frames_step; [frames_step|]).
  frames_step. { destruct a0; repeat frames_step. }
  repeat frames_step.
Qed.

(** On a device not seen before, the first thing [prepare_port_filter]
    asks of the provider is to create the default rules. *)
Lemma prepare_unknown_first_call p st :
  _security_ports st !! device p = None →
  ∃ rest,
    calls (prepare p st).2
    = calls st
        ++ create_security_rules (port_id p)
             (create_default_sg_rules nu py_hash) :: rest.
Proof.
  intros Hnew. unfold prepare_port_filter.
  rewrite (bind_lift _ _ st None) by (by rewrite Hnew).
  cbv beta iota.
  set (st0 := with_sec_group_rules (<[port_id p := []]>) st).
  set (c := create_security_rules _ _).
  match goal with
  | |- context [bind (bind (modify ?f) ?k1) ?k2 st] =>
      pose proof (calls_bind_prefix (bind (modify f) k1) k2 st) as Hout;
      rewrite (bind_modify f k1 st) in Hout;
      cbv beta in Hout; fold st0 in Hout;
      match type of Hout with
      | context [bind ?m ?k st0] =>
          pose proof (calls_bind_prefix m k st0) as Hin
      end
  end.
  assert (Hadd : calls (_add_sg_port_rules provider (port_id p)
                          (create_default_sg_rules nu py_hash) st0).2
                 = calls st ++ [c]).
  { rewrite (add_run provider _ _ [] st0).
    - cbn zeta. fold c. by destruct (provider _ _).
    - discriminate.
    - apply lookup_insert_eq. }
  rewrite Hadd in Hin.
  assert (Hpre : (calls st ++ [c]) `prefix_of` calls (prepare p st).2).
  { unfold prepare_port_filter.
    rewrite (bind_lift _ _ st None) by (by rewrite Hnew).
    cbv beta iota.
    etrans; [apply Hin|apply Hout].
    - intros _. repeat frames_step.
    - intros _. unfold newrules_getitem. repeat frames_step. }
  destruct Hpre as [rest Hrest]. exists rest.
  unfold prepare_port_filter in Hrest.
  rewrite (bind_lift _ _ st None) in Hrest by (by rewrite Hnew).
  cbv beta iota in Hrest.
  rewrite Hrest. by rewrite <- app_assoc.
Qed.

Lemma prepare_Ok p st st' :
  prepare p st = (Ok tt, st') → synchronized ipnetwork_cidr p st st'.
Proof.
  unfold prepare_port_filter. intros H.
  apply bind_Ok in H as (known & st0 & Hknown & H).
  apply lift_Ok in Hknown as [_ ->].
  apply bind_Ok in H as ([] & st1 & Hsetup & H).
  assert (Hframe1 : helper_frame st st1).
  { destruct known; [by injection Hsetup as <-|].
    eapply run_frames; [|exact Hsetup].
    apply (frames_bind helper_frame); [apply frames_rules_update|intros _].
    apply (frames_bind helper_frame); [apply frames_add|intros _].
    apply frames_create_port_rules. }
  apply bind_Ok in H as (newrules & st2 & Hgen & H).
  apply lift_Ok in Hgen as [Hgen ->].
  apply bind_Ok in H as (rules & st2 & Hrules & H).
  apply newrules_getitem_Ok in Hrules as [Hrules ->].
  apply bind_Ok in H as ([] & st2 & Hcreate & H).
  assert (Hframe2 : helper_frame st1 st2).
  { eapply run_frames; [apply frames_create_port_rules|exact Hcreate]. }
  rewrite bind_modify in H.
  apply bind_Ok in H as (rules' & st3 & Hrules' & H).
  apply newrules_getitem_Ok in Hrules' as [Hrules' ->].
  apply modify_Ok in H. simplify_eq.
  exists newrules, rules, st2.
  split; [|split; [done|split; [by etrans|done]]].
  rewrite <- Hgen. symmetry.
  destruct Hframe1 as (? & ? & _). by apply generate_rules_reads_caches.
Qed.

Lemma update_Ok p old_port st st' :
  _security_ports st !! device p = Some old_port →
  update p st = (Ok tt, st') → synchronized ipnetwork_cidr p st st'.
Proof.
  unfold update_port_filter. intros Hknown H.
  rewrite (bind_lift _ _ st (Some old_port)) in H by (by rewrite Hknown).
  cbv beta iota zeta in H.
  apply bind_Ok in H as (newrules & st0 & Hgen & H).
  apply lift_Ok in Hgen as [Hgen ->].
  apply bind_Ok in H as (rules & st0 & Hrules & H).
  apply newrules_getitem_Ok in Hrules as [Hrules ->].
  apply bind_Ok in H as (fresh & st0 & Hfresh & H).
  assert (st0 = st) as ->.
  { destruct rules; [by injection Hfresh|].
    apply bind_Ok in Hfresh as (cur & st1 & Hcur & Hfresh).
    apply lift_Ok in Hcur as [_ ->]. by injection Hfresh. }
  clear Hfresh.
  apply bind_Ok in H as (current & st0 & Hcur & H).
  apply lift_Ok in Hcur as [_ ->].
  apply bind_Ok in H as ([] & st1 & Hcreate & H).
  apply bind_Ok in H as ([] & st2 & Hremove & H).
  rewrite bind_modify in H.
  apply bind_Ok in H as (rules' & st3 & Hrules' & H).
  apply newrules_getitem_Ok in Hrules' as [Hrules' ->].
  apply modify_Ok in H. simplify_eq.
  assert (Hframe : helper_frame st st2).
  { etrans.
    - eapply run_frames; [apply frames_create_port_rules|exact Hcreate].
    - eapply run_frames; [apply frames_remove_port_rules|exact Hremove]. }
  by exists newrules, rules, st2.
Qed.

Lemma synchronized_entry p st st' :
  synchronized ipnetwork_cidr p st st' →
  ∃ ingress egress,
    _select_sg_rules_for_port ipnetwork_cidr st' p INGRESS_DIRECTION
    = Ok ingress
    ∧ _select_sg_rules_for_port ipnetwork_cidr st' p EGRESS_DIRECTION
      = Ok egress
    ∧ _sec_group_rules st' !! port_id p
      = Some (Abstract <$> (ingress ++ egress))
    ∧ _security_ports st' !! device p = Some p
    ∧ _sg_members st' = _sg_members st
    ∧ _sg_rule_templates st' = _sg_rule_templates st.
Proof.
  intros (newrules & rules & mid & Hgen & Hrules & (Hm & Ht & _) & ->).
  apply generate_rules_one in Hgen as (ingress & egress & Hi & He & Hl).
  rewrite Hrules in Hl. injection Hl as ->.
  exists ingress, egress.
  rewrite (select_reads_caches _ st _ p INGRESS_DIRECTION) by done.
  rewrite (select_reads_caches _ st _ p EGRESS_DIRECTION) by done.
  cbn. by rewrite !lookup_insert_eq.
Qed.

Hypothesis set_iter_nil : set_iter [] = [].

Lemma create_port_rules_nothing pid old st :
  _sec_group_rules st !! pid = Some old →
  _create_port_rules nu py_hash provider set_iter pid [] st = (Ok tt, st).
Proof.
  intros Hold. unfold _create_port_rules.
  rewrite (bind_lift _ _ st []) by done.
  rewrite (bind_getitem _ _ _ _ Hold). cbn.
  unfold list_set. cbn. by rewrite set_iter_nil.
Qed.

Lemma remove_port_rules_nothing pid st :
  _remove_port_rules nu py_hash provider set_iter pid [] st = (Ok tt, st).
Proof.
  unfold _remove_port_rules. rewrite (bind_lift _ _ st []) by done.
  unfold list_set. cbn. by rewrite set_iter_nil.
Qed.

(** On a port whose entry is what selection yields now, and whose
    description is the one on record, an update asks nothing of the
    provider and leaves the driver as it is. *)
Lemma update_in_sync p st newrules rules :
  _security_ports st !! device p = Some p →
  _generate_rules ipnetwork_cidr st [p] = Ok newrules →
  newrules !! port_id p = Some rules →
  _sec_group_rules st !! port_id p = Some (Abstract <$> rules) →
  update p st = (Ok tt, st).
Proof.
  intros Hknown Hgen Hrules Hentry. unfold update_port_filter.
  rewrite (bind_lift _ _ st (Some p)) by (by rewrite Hknown).
  cbv beta iota zeta.
  rewrite (bind_lift _ _ st newrules) by done.
  unfold newrules_getitem.
  rewrite (bind_lift _ _ st rules) by (by rewrite Hrules).
  rewrite (filter_none (λ r, r ∉ security_group_rules p)) by tauto.
  assert (Hfresh :
    filter (λ r, py_in (Abstract r) (Abstract <$> rules) = false) rules = []).
  { apply filter_none. intros r Hr. by rewrite py_in_dict. }
  assert (Hstale :
    filter (λ x, py_in x (Abstract <$> rules) = false) (Abstract <$> rules)
    = []).
  { apply filter_none. intros x Hx.
    apply list_elem_of_fmap in Hx as (r & -> & Hr). by rewrite py_in_dict. }
  assert (Hrun : ∀ (k : list rule → M unit),
    bind (match rules with
          | [] => ret []
          | _ :: _ =>
              (do! current := sec_group_rules_getitem (port_id p) in
               ret (filter (λ r, py_in (Abstract r) current = false) rules)
              )%driver
          end) k st = k [] st).
  { intros k. destruct rules as [|r rules']; [done|].
    unfold bind at 1. rewrite (bind_getitem _ _ _ _ Hentry).
    by rewrite Hfresh. }
  rewrite Hrun. rewrite (bind_getitem _ _ _ _ Hentry).
  rewrite Hstale. cbn [app fmap list_fmap].
  unfold bind at 1. rewrite (create_port_rules_nothing _ _ _ Hentry).
  unfold bind at 1. rewrite remove_port_rules_nothing.
  rewrite bind_modify. rewrite (bind_lift _ _ _ rules) by (by rewrite Hrules).
  unfold modify. f_equal. destruct st; cbn in *.
  unfold with_sec_group_rules, with_security_ports; cbn.
  by rewrite !insert_id.
Qed.

Lemma synchronized_in_sync p st st' :
  synchronized ipnetwork_cidr p st st' → update p st' = (Ok tt, st').
Proof.
  intros (newrules & rules & mid & Hgen & Hrules & (Hm & Ht & _) & ->).
  apply (update_in_sync p _ newrules rules).
  - cbn. apply lookup_insert_eq.
  - rewrite <- Hgen. by apply generate_rules_reads_caches.
  - done.
  - cbn. apply lookup_insert_eq.
Qed.

End Lifecycle.



(** C1, as the code has it. After a [prepare_port_filter] that returns, and
    after an [update_port_filter] that returns on a device already known,
    the entry of [_sec_group_rules] for the port id is the selector's
    output for the port under the current caches, the inbound rules
    followed by the outbound ones, as the dictionaries the selector built:
    not the rules the generator makes of them, and nothing for the port's
    provider rules. The caches are untouched and the port is on record. *)
Theorem applied_rules_are_selector_output
    nu py_hash ipnetwork_cidr provider set_iter p st st' :
  prepare_port_filter nu py_hash ipnetwork_cidr provider set_iter p st
  = (Ok tt, st')
  ∨ (is_Some (_security_ports st !! device p)
     ∧ update_port_filter nu py_hash ipnetwork_cidr provider set_iter p st
       = (Ok tt, st')) →
  ∃ ingress egress,
    _select_sg_rules_for_port ipnetwork_cidr st' p INGRESS_DIRECTION
    = Ok ingress
    ∧ _select_sg_rules_for_port ipnetwork_cidr st' p EGRESS_DIRECTION
      = Ok egress
    ∧ _sec_group_rules st' !! port_id p
      = Some (Abstract <$> (ingress ++ egress))
    ∧ _security_ports st' !! device p = Some p
    ∧ _sg_members st' = _sg_members st
    ∧ _sg_rule_templates st' = _sg_rule_templates st.
Proof.
  intros [Hprepare|[[old_port Hknown] Hupdate]];
    apply (synchronized_entry ipnetwork_cidr).
  - by eapply prepare_Ok.
  - by eapply update_Ok.
Qed.

Lemma applied_rules_are_selector_output_witness :
  ∃ ingress egress,
    _select_sg_rules_for_port sample_cidr
      (sample_prepare web_port web_state).2 web_port INGRESS_DIRECTION
    = Ok ingress
    ∧ _select_sg_rules_for_port sample_cidr
        (sample_prepare web_port web_state).2 web_port EGRESS_DIRECTION
      = Ok egress
    ∧ _sec_group_rules (sample_prepare web_port web_state).2 !! "p1"
      = Some (Abstract <$> (ingress ++ egress))
    ∧ _security_ports (sample_prepare web_port web_state).2 !! "tap1"
      = Some web_port
    ∧ _sg_members (sample_prepare web_port web_state).2
      = _sg_members web_state
    ∧ _sg_rule_templates (sample_prepare web_port web_state).2
      = _sg_rule_templates web_state.
Proof.
  apply (applied_rules_are_selector_output sample_networkutils sample_hash
           sample_cidr sample_provider sample_set_iter web_port web_state).
  left. vm_compute. reflexivity.
Defined.

(** C1, the claim refuted. A port of group "web", which allows ssh, with a
    provider rule for dns, is prepared on a fresh driver and the provider
    accepts every call. The rule set the claim describes holds the ssh and
    the dns allow rules; the entry holds one dictionary, the ssh template
    stamped with its group, and neither of the two rules. *)
Lemma applied_rules_differ_from_generated_set :
  (sample_prepare web_port web_state).1 = Ok tt
  ∧ spec_applied_rule_set sample_networkutils sample_hash sample_cidr
      (sample_prepare web_port web_state).2 web_port
    = Ok [ssh_allow; dns_allow]
  ∧ _sec_group_rules (sample_prepare web_port web_state).2 !! "p1"
    = Some [Abstract (<["security_group_id" := VStr "web"]> ssh_template)]
  ∧ py_in (Concrete ssh_allow)
      [Abstract (<["security_group_id" := VStr "web"]> ssh_template)]
    = false
  ∧ py_in (Concrete dns_allow)
      [Abstract (<["security_group_id" := VStr "web"]> ssh_template)]
    = false
  ∧ Concrete dns_allow
    ∉ [Abstract (<["security_group_id" := VStr "web"]> ssh_template)].
Proof.
  repeat split; try (vm_compute; reflexivity).
  intros H. apply list_elem_of_singleton in H. discriminate.
Qed.



(** * Further properties of the generator *)

Lemma direction_code nu d :
  d ∈ table_keys DIRECTION_IP_PREFIX →
  ∃ code, table_getitem (ACL_PROP_MAP_direction nu) (VStr d) = Ok code
          ∧ code ∈ [_ACL_DIR_IN nu; _ACL_DIR_OUT nu]
          ∧ (d = "ingress" → code = _ACL_DIR_IN nu)
          ∧ (d = "egress" → code = _ACL_DIR_OUT nu).
Proof.
  intros Hd. apply list_elem_of_In in Hd. cbn in Hd.
  destruct Hd as [<-|[<-|[]]]; cbn; eexists; (split; [reflexivity|]);
    (split; [repeat constructor|]); split; (done || discriminate).
Qed.

(** What the generator returns for a dictionary whose direction and remote
    address resolve. *)
Lemma generator_run nu h (r : rule) d code ra :
  r !! "direction" = Some (VStr d) →
  table_getitem (ACL_PROP_MAP_direction nu) (VStr d) = Ok code →
  _get_rule_remote_address r = Ok (VStr ra) →
  create_security_group_rule nu h (Abstract r)
  = Ok ((λ p, SecurityGroupRuleR2__init__ nu h code (_get_rule_port_range r)
                p (split_first "/128" ra) (_ACL_ACTION_ALLOW nu))
          <$> resolved_protocols nu r).
Proof.
  intros Hdir Hcode Hra.
  unfold create_security_group_rule, getitem. rewrite Hdir. cbn [obind].
  rewrite Hcode. cbn [obind]. rewrite Hra. cbn [obind].
  unfold resolved_protocols. by case_bool_decide.
Qed.

(** X1. On a well-formed template the generator does not raise. It returns
    four rules when the protocol resolves to the wildcard marker and one
    rule otherwise; every rule allows, carries the code of the template's
    direction, and has the template's port range as local port, or the
    empty string when its protocol is an ICMP code. *)
Theorem generator_on_well_formed nu py_hash (r : rule) :
  well_formed_template r = true →
  ∃ rules,
    create_security_group_rule nu py_hash (Abstract r) = Ok rules
    ∧ Protocol <$> rules = resolved_protocols nu r
    ∧ length rules
      = (if bool_decide (_get_rule_protocol nu r = VStr ACL_PROP_MAP_default)
         then 4 else 1)
    ∧ ∀ c, c ∈ rules →
        Action c = _ACL_ACTION_ALLOW nu
        ∧ (r !! "direction" = Some (VStr "ingress") →
           Direction c = _ACL_DIR_IN nu)
        ∧ (r !! "direction" = Some (VStr "egress") →
           Direction c = _ACL_DIR_OUT nu)
        ∧ LocalPort c
          = (if is_icmp_family nu (Protocol c) then ""
             else _get_rule_port_range r)
        ∧ Stateful c
          = negb (is_icmp_family nu (Protocol c))
            && negb (bool_decide
                       (_ACL_ACTION_ALLOW nu = _ACL_ACTION_DENY nu)).
Proof.
  intros Hwf.
  destruct (remote_address_is_text r Hwf) as [ra Hra].
  destruct (well_formed_direction r Hwf) as (d & Hd & Hdir).
  destruct (direction_code nu d Hd) as (code & Hcode & _ & Hin & Hout).
  eexists. split; [exact (generator_run nu py_hash r d code ra Hdir Hcode Hra)|].
  split.
  { rewrite <- list_fmap_compose. by rewrite list_fmap_id. }
  split.
  { rewrite length_fmap. unfold resolved_protocols. by case_bool_decide. }
  intros c Hc. apply list_elem_of_fmap in Hc as (p & -> & Hp).
  destruct (init_fields nu py_hash code (_get_rule_port_range r) p
              (split_first "/128" ra) (_ACL_ACTION_ALLOW nu))
    as (-> & -> & -> & _ & -> & ->).
  repeat split; try done.
  - intros Hingress. apply Hin. congruence.
  - intros Hegress. apply Hout. congruence.
Qed.

Lemma generator_on_well_formed_witness :
  ∃ rules,
    create_security_group_rule sample_networkutils sample_hash
      (Abstract group_template) = Ok rules
    ∧ Protocol <$> rules = resolved_protocols sample_networkutils group_template
    ∧ length rules = 1
    ∧ ∀ c, c ∈ rules →
        Action c = VInt 1
        ∧ (group_template !! "direction" = Some (VStr "ingress") →
           Direction c = VInt 1)
        ∧ (group_template !! "direction" = Some (VStr "egress") →
           Direction c = VInt 2)
        ∧ LocalPort c
          = (if is_icmp_family sample_networkutils (Protocol c) then ""
             else _get_rule_port_range group_template)
        ∧ Stateful c
          = negb (is_icmp_family sample_networkutils (Protocol c))
            && negb (bool_decide (VInt 1 = VInt 2)).
Proof.
  apply (generator_on_well_formed sample_networkutils sample_hash
           group_template).
  vm_compute. reflexivity.
Defined.

(** X2. The generator returns exactly when the direction is one of the two
    the table knows and the remote address resolves to text; handed
    anything else it raises: [KeyError] for a missing or unknown direction,
    and for a missing or unknown ethertype when no prefix is given,
    [AttributeError] for a prefix that is not text, [TypeError] for a rule
    object. *)
Theorem generator_errors nu py_hash (r : rule) :
  ((∃ rules, create_security_group_rule nu py_hash (Abstract r) = Ok rules)
   ↔ (∃ d, d ∈ table_keys DIRECTION_IP_PREFIX
           ∧ r !! "direction" = Some (VStr d))
     ∧ ∃ s, _get_rule_remote_address r = Ok (VStr s))
  ∧ (table_lookup (ACL_PROP_MAP_direction nu)
       (default VNone (r !! "direction")) = None →
     create_security_group_rule nu py_hash (Abstract r) = Raise KeyError)
  ∧ (∀ d v, d ∈ table_keys DIRECTION_IP_PREFIX →
       r !! "direction" = Some (VStr d) →
       _get_rule_remote_address r = Ok v →
       (∀ s, v ≠ VStr s) →
       create_security_group_rule nu py_hash (Abstract r)
       = Raise AttributeError)
  ∧ (∀ d e, d ∈ table_keys DIRECTION_IP_PREFIX →
       r !! "direction" = Some (VStr d) →
       _get_rule_remote_address r = Raise e →
       e = KeyError
       ∧ create_security_group_rule nu py_hash (Abstract r) = Raise KeyError)
  ∧ ∀ c, create_security_group_rule nu py_hash (Concrete c) = Raise TypeError.
Proof.
  split; [split|].
  - intros [rules Hgen]. unfold create_security_group_rule, getitem in Hgen.
    destruct (r !! "direction") as [dv|] eqn:Hdir; [|done]. cbn in Hgen.
    destruct dv as [| | |d]; try done.
    destruct (table_getitem (ACL_PROP_MAP_direction nu) (VStr d))
      as [code|] eqn:Hcode; [|done].
    cbn in Hgen.
    destruct (_get_rule_remote_address r) as [[| | |s]|]; try done.
    split; [|by eexists]. exists d. split; [|done].
    unfold table_getitem, table_lookup, ACL_PROP_MAP_direction in Hcode.
    cbn [table_get] in Hcode.
    destruct (String.eqb_spec "ingress" d) as [<-|]; [repeat constructor|].
    destruct (String.eqb_spec "egress" d) as [<-|]; [repeat constructor|].
    done.
  - intros [(d & Hd & Hdir) [s Hra]].
    destruct (direction_code nu d Hd) as (code & Hcode & _).
    eexists. exact (generator_run nu py_hash r d code s Hdir Hcode Hra).
  - split; [|split; [|split]].
    + intros Hnone. unfold create_security_group_rule, getitem.
      destruct (r !! "direction") as [dv|]; [|done]. cbn in *.
      unfold table_getitem. by rewrite Hnone.
    + intros d v Hd Hdir Hra Hv.
      destruct (direction_code nu d Hd) as (code & Hcode & _).
      unfold create_security_group_rule, getitem. rewrite Hdir. cbn [obind].
      rewrite Hcode. cbn [obind]. rewrite Hra. cbn [obind].
      destruct v; try done. by destruct (Hv s).
    + intros d e Hd Hdir Hra.
      destruct (direction_code nu d Hd) as (code & Hcode & _).
      assert (e = KeyError) as ->.
      { unfold _get_rule_remote_address, getitem in Hra. rewrite Hdir in Hra.
        cbn [obind] in Hra.
        destruct (r !! (if bool_decide (VStr d = VStr "ingress")
                        then "source_ip_prefix" else "dest_ip_prefix"));
          [done|].
        destruct (r !! "ethertype") as [ev|]; [|by injection Hra].
        cbn [obind] in Hra. unfold table_getitem in Hra.
        destruct (table_lookup ACL_PROP_MAP_address_default ev);
          [done|by injection Hra]. }
      split; [done|].
      unfold create_security_group_rule, getitem. rewrite Hdir. cbn [obind].
      rewrite Hcode. cbn [obind]. by rewrite Hra.
    + done.
Qed.

(** X3. A protocol that does not resolve to the wildcard marker yields
    exactly one rule, carrying the resolved protocol: the table's code for
    one of its four names, and the value as given, unchecked, for anything
    else. *)
Theorem explicit_protocol_passes_through nu py_hash (r : rule) :
  well_formed_template r = true →
  _get_rule_protocol nu r ≠ VStr ACL_PROP_MAP_default →
  ∃ c,
    create_security_group_rule nu py_hash (Abstract r) = Ok [c]
    ∧ Protocol c = _get_rule_protocol nu r
    ∧ (∀ v, r !! "protocol" = Some v →
            table_lookup (ACL_PROP_MAP_protocol nu) v = None →
            Protocol c = v)
    ∧ (∀ v code, r !! "protocol" = Some v →
            table_lookup (ACL_PROP_MAP_protocol nu) v = Some code →
            Protocol c = code).
Proof.
  intros Hwf Hproto.
  destruct (remote_address_is_text r Hwf) as [ra Hra].
  destruct (well_formed_direction r Hwf) as (d & Hd & Hdir).
  destruct (direction_code nu d Hd) as (code & Hcode & _).
  eexists. split.
  { rewrite (generator_run nu py_hash r d code ra Hdir Hcode Hra).
    unfold resolved_protocols. by rewrite bool_decide_eq_false_2. }
  split; [done|]. cbn.
  unfold _get_rule_protocol, _get_rule_prop_or_default.
  split; intros v; [|intros code']; intros -> ->; done.
Qed.

Lemma explicit_protocol_passes_through_witness :
  ∃ c,
    create_security_group_rule sample_networkutils sample_hash
      (Abstract sctp_template) = Ok [c]
    ∧ Protocol c = _get_rule_protocol sample_networkutils sctp_template
    ∧ (∀ v, sctp_template !! "protocol" = Some v →
            table_lookup (ACL_PROP_MAP_protocol sample_networkutils) v = None →
            Protocol c = v)
    ∧ (∀ v code, sctp_template !! "protocol" = Some v →
            table_lookup (ACL_PROP_MAP_protocol sample_networkutils) v
            = Some code →
            Protocol c = code).
Proof.
  apply (explicit_protocol_passes_through sample_networkutils sample_hash
           sctp_template).
  - vm_compute. reflexivity.
  - vm_compute. discriminate.
Defined.

(** ** Normalisation of the remote address *)

Lemma prefix_cons (a b : Ascii.ascii) (s1 s2 : string) :
  String.prefix (String a s1) (String b s2)
  = if Ascii.ascii_dec a b then String.prefix s1 s2 else false.
Proof. reflexivity. Qed.

Lemma prefix_other_char (c : Ascii.ascii) (sep' s : string) :
  c ≠ "/"%char → String.prefix (String "/" sep') (String c s) = false.
Proof.
  intros Hc. rewrite prefix_cons.
  destruct (Ascii.ascii_dec "/" c) as [Heq|]; [congruence|reflexivity].
Qed.

Lemma append_cons (c : Ascii.ascii) (a s : string) :
  String c a +:+ s = String c (a +:+ s).
Proof. reflexivity. Qed.

Lemma split_first_cons (sep : string) (c : Ascii.ascii) (s : string) :
  split_first sep (String c s)
  = if String.prefix sep (String c s) then ""
    else String c (split_first sep s).
Proof. reflexivity. Qed.

Lemma split_first_no_slash (sep' s : string) :
  "/"%char ∉ String.list_ascii_of_string s →
  split_first (String "/" sep') s = s.
Proof.
  induction s as [|c s IH]; intros Hs; [reflexivity|].
  cbn [String.list_ascii_of_string] in Hs. apply not_elem_of_cons in Hs as [Hc Hs].
  rewrite split_first_cons, prefix_other_char by done.
  by rewrite IH.
Qed.

Lemma split_first_at_slash (a m : string) :
  "/"%char ∉ String.list_ascii_of_string a →
  "/"%char ∉ String.list_ascii_of_string m →
  split_first "/128" (a +:+ String "/" m)
  = if String.prefix "128" m then a else a +:+ String "/" m.
Proof.
  intros Ha Hm. induction a as [|c a IH].
  - change ("" +:+ String "/" m) with (String "/" m).
    rewrite split_first_cons.
    replace (String.prefix "/128" (String "/" m)) with (String.prefix "128" m)
      by (rewrite prefix_cons; by destruct (Ascii.ascii_dec "/" "/")).
    destruct (String.prefix "128" m); [done|].
    by rewrite split_first_no_slash.
  - cbn [String.list_ascii_of_string] in Ha.
    apply not_elem_of_cons in Ha as [Hc Ha].
    rewrite append_cons, split_first_cons, prefix_other_char by done.
    rewrite IH by done. by destruct (String.prefix "128" m).
Qed.

(** X4. A remote prefix written as address, slash, mask, with no other
    slash: when the mask begins with 128 the generated rules carry the bare
    address, and otherwise the prefix as it is written. So an IPv6 host
    route loses its suffix and an IPv4 prefix keeps its own. *)
Theorem host_route_is_stripped nu py_hash (r : rule) d a m :
  d ∈ table_keys DIRECTION_IP_PREFIX →
  r !! "direction" = Some (VStr d) →
  _get_rule_remote_address r = Ok (VStr (a +:+ String "/" m)) →
  "/"%char ∉ String.list_ascii_of_string a →
  "/"%char ∉ String.list_ascii_of_string m →
  ∃ rules,
    create_security_group_rule nu py_hash (Abstract r) = Ok rules
    ∧ ∀ c, c ∈ rules →
        RemoteIPAddress c
        = if String.prefix "128" m then a else a +:+ String "/" m.
Proof.
  intros Hd Hdir Hra Ha Hm.
  destruct (direction_code nu d Hd) as (code & Hcode & _).
  eexists. split; [exact (generator_run nu py_hash r d code _ Hdir Hcode Hra)|].
  intros c Hc. apply list_elem_of_fmap in Hc as (p & -> & Hp).
  cbn. by apply split_first_at_slash.
Qed.

Lemma host_route_is_stripped_witness :
  ∃ rules,
    create_security_group_rule sample_networkutils sample_hash
      (Abstract host_route_template) = Ok rules
    ∧ ∀ c, c ∈ rules → RemoteIPAddress c = "::1".
Proof.
  apply (host_route_is_stripped sample_networkutils sample_hash
           host_route_template "ingress" "::1" "128").
  - repeat constructor.
  - vm_compute. reflexivity.
  - vm_compute. reflexivity.
  - intros H. apply list_elem_of_In in H. vm_compute in H.
    intuition discriminate.
  - intros H. apply list_elem_of_In in H. vm_compute in H.
    intuition discriminate.
Defined.

(** ** Rule values: the dictionary form *)

Lemma to_dict_lookups (a : SecurityGroupRuleR2) :
  to_dict a !! "Direction" = Some (Direction a)
  ∧ to_dict a !! "Action" = Some (Action a)
  ∧ to_dict a !! "LocalPort" = Some (VStr (LocalPort a))
  ∧ to_dict a !! "Protocol" = Some (Protocol a)
  ∧ to_dict a !! "RemoteIPAddress" = Some (VStr (RemoteIPAddress a))
  ∧ to_dict a !! "Stateful" = Some (VBool (Stateful a))
  ∧ to_dict a !! "IdleSessionTimeout" = Some (VInt (IdleSessionTimeout a))
  ∧ to_dict a !! "Weight" = None
  ∧ to_dict a !! "_cached_hash" = None.
Proof. repeat split; vm_compute; reflexivity. Qed.

Lemma to_dict_compared_fields (a b : SecurityGroupRuleR2) :
  to_dict a = to_dict b ↔ compared_fields a = compared_fields b.
Proof.
  split.
  - intros Heq.
    destruct (to_dict_lookups a) as (A1 & A2 & A3 & A4 & A5 & A6 & A7 & _).
    destruct (to_dict_lookups b) as (B1 & B2 & B3 & B4 & B5 & B6 & B7 & _).
    rewrite Heq in A1, A2, A3, A4, A5, A6, A7.
    unfold compared_fields. congruence.
  - destruct a, b. unfold compared_fields. cbn. intros [= -> -> -> -> -> -> ->].
    reflexivity.
Qed.

(** X5. [to_dict] lists the seven attributes of [_FIELDS], and neither the
    weight nor the hash; two rules are equal for [__eq__] exactly when
    their dictionary forms are the same. *)
Theorem to_dict_decides_equality (a b : SecurityGroupRuleR2) :
  dom (to_dict a) = list_to_set _FIELDS
  ∧ to_dict a !! "Weight" = None
  ∧ to_dict a !! "_cached_hash" = None
  ∧ __eq__ a (Concrete b) = bool_decide (to_dict a = to_dict b).
Proof.
  split; [|split; [apply to_dict_lookups|split; [apply to_dict_lookups|]]].
  - unfold to_dict. rewrite dom_list_to_map_L. reflexivity.
  - rewrite eq_compared_fields. apply bool_decide_ext.
    symmetry. apply to_dict_compared_fields.
Qed.

Lemma rule_eq_refl (a : SecurityGroupRuleR2) : __eq__ a (Concrete a) = true.
Proof. rewrite eq_compared_fields. by apply bool_decide_eq_true_2. Qed.

(** X6. [__eq__] is an equivalence on rule objects, answers [False] for
    any dictionary, and [==] gives the same answer in both orders
    whatever the two operands are. *)
Theorem rule_eq_is_equivalence :
  (∀ a, __eq__ a (Concrete a) = true)
  ∧ (∀ a b, __eq__ a (Concrete b) = __eq__ b (Concrete a))
  ∧ (∀ a b c, __eq__ a (Concrete b) = true → __eq__ b (Concrete c) = true →
              __eq__ a (Concrete c) = true)
  ∧ (∀ a (d : rule), __eq__ a (Abstract d) = false)
  ∧ ∀ x y, py_eq x y = py_eq y x.
Proof.
  assert (Hsym : ∀ a b, __eq__ a (Concrete b) = __eq__ b (Concrete a)).
  { intros a b. rewrite !eq_compared_fields. by apply bool_decide_ext. }
  split; [|split; [exact Hsym|split; [|split]]].
  - apply rule_eq_refl.
  - intros a b c. rewrite !eq_compared_fields.
    intros Hab%bool_decide_eq_true_1 Hbc%bool_decide_eq_true_1.
    apply bool_decide_eq_true_2. congruence.
  - done.
  - intros [d1|a] [d2|b]; cbn [py_eq]; try done.
    by apply bool_decide_ext.
Qed.

(** * Further properties of the selector *)

Lemma flat_mapM_elem {A B} (f : A → outcome (list B)) (l : list A) out y :
  flat_mapM f l = Ok out → y ∈ out →
  ∃ x ys, x ∈ l ∧ f x = Ok ys ∧ y ∈ ys.
Proof.
  revert out. induction l as [|x l IH]; intros out Hrun Hy.
  - injection Hrun as <-. by apply not_elem_of_nil in Hy.
  - cbn in Hrun. destruct (f x) as [ys|] eqn:Hfx; [|done]. cbn in Hrun.
    destruct (flat_mapM f l) as [rest|]; [|done]. injection Hrun as <-.
    apply elem_of_app in Hy as [Hy|Hy].
    + exists x, ys. split; [left|done].
    + destruct (IH rest eq_refl Hy) as (x' & ys' & ? & ? & ?).
      exists x', ys'. split; [by right|done].
Qed.

(** X7. Every rule the selector emits comes from a template of a group
    attached to the port: it is that template with [security_group_id] set
    to the group, its direction is the one asked for, and, when the
    template names a remote group, its prefix in that direction is the
    rendering of an address of that group, under the template's ethertype,
    that is not one of the port's own addresses. A template that names no
    remote group is emitted with nothing else changed. *)
Theorem selected_rules_origin ipnetwork_cidr st p direction out (r : rule) :
  _select_sg_rules_for_port ipnetwork_cidr st p direction = Ok out →
  r ∈ out →
  ∃ sg_id templates (t : rule),
    sg_id ∈ security_groups p
    ∧ _sg_rule_templates st !! sg_id = Some templates
    ∧ t ∈ templates
    ∧ t !! "direction" = Some (VStr direction)
    ∧ r !! "direction" = Some (VStr direction)
    ∧ r !! "security_group_id" = Some (VStr sg_id)
    ∧ (truthy (default VNone (t !! "remote_group_id")) = false →
       r = <["security_group_id" := VStr sg_id]> t)
    ∧ (truthy (default VNone (t !! "remote_group_id")) = true →
       ∃ ethertype group ips ip key cidr,
         t !! "ethertype" = Some ethertype
         ∧ cache_getitem (_sg_members st)
             (default VNone (t !! "remote_group_id")) = Ok group
         ∧ cache_getitem group ethertype = Ok ips
         ∧ ip ∈ ips ∧ (ip ∉ fixed_ips p)
         ∧ table_get DIRECTION_IP_PREFIX direction = Some key
         ∧ ipnetwork_cidr ip = Ok cidr
         ∧ r = <["security_group_id" := VStr sg_id]>
                 (<[key := VStr cidr]> t)).
Proof.
  unfold _select_sg_rules_for_port. intros Hrun Hr.
  destruct (flat_mapM_elem _ _ _ _ Hrun Hr) as (sg_id & rs & Hsg & Hgroup & Hr1).
  destruct (_sg_rule_templates st !! sg_id) as [templates|] eqn:Htemplates;
    [|cbn in Hgroup; injection Hgroup as <-; by apply not_elem_of_nil in Hr1].
  cbn [default from_option id] in Hgroup.
  destruct (flat_mapM_elem _ _ _ _ Hgroup Hr1) as (t & ts & Ht & Hone & Hr2).
  exists sg_id, templates, t. split; [done|]. split; [done|]. split; [done|].
  unfold getitem in Hone.
  destruct (t !! "direction") as [d|] eqn:Hdir; [|done]. cbn [obind] in Hone.
  case_bool_decide as Hd;
    [injection Hone as <-; by apply not_elem_of_nil in Hr2|].
  assert (d = VStr direction) as -> by (by destruct (decide (d = VStr direction))).
  split; [done|].
  destruct (truthy (default VNone (t !! "remote_group_id"))) eqn:Hremote;
    cbn [negb] in Hone.
  - destruct (t !! "ethertype") as [ethertype|] eqn:Heth; [|done].
    cbn [obind] in Hone.
    destruct (cache_getitem (_sg_members st) _) as [group|] eqn:Hg; [|done].
    cbn [obind] in Hone.
    destruct (cache_getitem group ethertype) as [ips|] eqn:Hips; [|done].
    cbn [obind] in Hone.
    destruct (flat_mapM_elem _ _ _ _ Hone Hr2) as (ip & out1 & Hip & Hemit & Hr3).
    case_bool_decide as Hown;
      [injection Hemit as <-; by apply not_elem_of_nil in Hr3|].
    unfold table_getitem in Hemit. cbn [table_lookup] in Hemit.
    destruct (table_get DIRECTION_IP_PREFIX direction) as [key|] eqn:Hkey;
      [|done].
    cbn [obind] in Hemit.
    destruct (ipnetwork_cidr ip) as [cidr|] eqn:Hcidr; [|done].
    cbn [obind] in Hemit. injection Hemit as <-.
    apply list_elem_of_singleton in Hr3. subst r.
    assert (Hkeys : key ≠ "direction" ∧ key ≠ "security_group_id").
    { unfold DIRECTION_IP_PREFIX in Hkey. cbn [table_get] in Hkey.
      destruct (String.eqb "ingress" direction); [by injection Hkey as <-|].
      destruct (String.eqb "egress" direction); [by injection Hkey as <-|].
      done. }
    destruct Hkeys as [Hk1 Hk2].
    split; [by rewrite lookup_insert_ne, lookup_insert_ne by done|].
    split; [by rewrite lookup_insert_eq|].
    split; [done|]. intros _.
    by exists ethertype, group, ips, ip, key, cidr.
  - injection Hone as <-. apply list_elem_of_singleton in Hr2. subst r.
    split; [by rewrite lookup_insert_ne by done|].
    split; [by rewrite lookup_insert_eq|].
    split; [done|]. done.
Qed.

Lemma selected_rules_origin_witness :
  ∃ sg_id templates (t : rule),
    sg_id ∈ security_groups group_port
    ∧ _sg_rule_templates group_state !! sg_id = Some templates
    ∧ t ∈ templates
    ∧ t !! "direction" = Some (VStr INGRESS_DIRECTION)
    ∧ selected_rule !! "direction" = Some (VStr INGRESS_DIRECTION)
    ∧ selected_rule !! "security_group_id" = Some (VStr sg_id)
    ∧ (truthy (default VNone (t !! "remote_group_id")) = false →
       selected_rule = <["security_group_id" := VStr sg_id]> t)
    ∧ (truthy (default VNone (t !! "remote_group_id")) = true →
       ∃ ethertype group ips ip key cidr,
         t !! "ethertype" = Some ethertype
         ∧ cache_getitem (_sg_members group_state)
             (default VNone (t !! "remote_group_id")) = Ok group
         ∧ cache_getitem group ethertype = Ok ips
         ∧ ip ∈ ips ∧ (ip ∉ fixed_ips group_port)
         ∧ table_get DIRECTION_IP_PREFIX INGRESS_DIRECTION = Some key
         ∧ sample_cidr ip = Ok cidr
         ∧ selected_rule = <["security_group_id" := VStr sg_id]>
                             (<[key := VStr cidr]> t)).
Proof.
  apply (selected_rules_origin sample_cidr group_state group_port
           INGRESS_DIRECTION [selected_rule] selected_rule).
  - vm_compute. reflexivity.
  - left.
Defined.

(** X8. Replacing the templates of a group the port is not attached to
    does not change what the selector yields for the port, whether that is
    a list of rules or an exception. *)
Theorem unattached_group_update_is_invisible
    ipnetwork_cidr st p direction sg_id sg_rules :
  sg_id ∉ security_groups p →
  _select_sg_rules_for_port ipnetwork_cidr
    (update_security_group_rules sg_id sg_rules st) p direction
  = _select_sg_rules_for_port ipnetwork_cidr st p direction.
Proof.
  unfold _select_sg_rules_for_port. cbn [_sg_members _sg_rule_templates
    update_security_group_rules].
  induction (security_groups p) as [|g gs IH]; intros Hnot; [done|].
  apply not_elem_of_cons in Hnot as [Hne Hnot].
  cbn [flat_mapM]. rewrite lookup_insert_ne by done.
  by rewrite IH.
Qed.

Lemma unattached_group_update_is_invisible_witness :
  _select_sg_rules_for_port sample_cidr
    (update_security_group_rules "web" [ssh_template] group_state)
    group_port INGRESS_DIRECTION
  = _select_sg_rules_for_port sample_cidr group_state group_port
      INGRESS_DIRECTION.
Proof.
  apply (unattached_group_update_is_invisible sample_cidr group_state
           group_port INGRESS_DIRECTION "web" [ssh_template]).
  intros H. apply list_elem_of_singleton in H. discriminate.
Defined.

(** * Further properties of the batches *)

Lemma dict_never_equals_rule (l : list rule) (c : SecurityGroupRuleR2) :
  list_remove (Concrete c) (Abstract <$> l) = None
  ∧ py_in (Concrete c) (Abstract <$> l) = false.
Proof.
  induction l as [|d l [IHr IHi]]; [done|].
  split; cbn; [by rewrite IHr|exact IHi].
Qed.

(** X9. Removing a batch that is not empty from a port whose list holds
    only dictionaries, as it does after [prepare_port_filter] or
    [update_port_filter] returned: once the provider has removed the rules,
    the first [remove] on the list finds no equal element, so the call
    raises [ValueError], and the bookkeeping is left as it was. *)
Theorem remove_from_dictionaries_raises provider pid batch (l : list rule) st :
  batch ≠ [] →
  _sec_group_rules st !! pid = Some (Abstract <$> l) →
  provider (calls st) (remove_security_rules pid batch) = None →
  (_remove_sg_port_rules provider pid batch st).1 = Raise ValueError
  ∧ calls (_remove_sg_port_rules provider pid batch st).2
    = calls st ++ [remove_security_rules pid batch]
  ∧ bookkeeping (_remove_sg_port_rules provider pid batch st).2
    = bookkeeping st.
Proof.
  intros Hne Hold Hok.
  rewrite (remove_run provider pid batch _ st Hne Hold). cbn zeta.
  rewrite Hok. destruct batch as [|c batch]; [done|].
  cbn [remove_each]. destruct (dict_never_equals_rule l c) as [-> _].
  cbn. unfold bookkeeping. cbn. by rewrite insert_id.
Qed.

Lemma remove_from_dictionaries_raises_witness :
  (_remove_sg_port_rules sample_provider "p1" [ssh_allow]
     (sample_prepare web_port web_state).2).1 = Raise ValueError
  ∧ calls (_remove_sg_port_rules sample_provider "p1" [ssh_allow]
             (sample_prepare web_port web_state).2).2
    = calls (sample_prepare web_port web_state).2
        ++ [remove_security_rules "p1" [ssh_allow]]
  ∧ bookkeeping (_remove_sg_port_rules sample_provider "p1" [ssh_allow]
                   (sample_prepare web_port web_state).2).2
    = bookkeeping (sample_prepare web_port web_state).2.
Proof.
  apply (remove_from_dictionaries_raises sample_provider "p1" [ssh_allow]
           [<["security_group_id" := VStr "web"]> ssh_template]
           (sample_prepare web_port web_state).2).
  - discriminate.
  - vm_compute. reflexivity.
  - reflexivity.
Defined.

Lemma list_remove_appended (old : list item) c rest :
  (∀ x, x ∈ old → py_eq x (Concrete c) = false) →
  list_remove (Concrete c) (old ++ Concrete c :: rest) = Some (old ++ rest).
Proof.
  induction old as [|x old IH]; intros Hold.
  - cbn [app list_remove py_eq]. by rewrite rule_eq_refl.
  - cbn [app list_remove]. rewrite (Hold x) by left.
    rewrite IH; [done|]. intros y Hy. apply Hold. by right.
Qed.

Lemma remove_each_appended (old : list item) batch :
  (∀ x c, x ∈ old → c ∈ batch → py_eq x (Concrete c) = false) →
  remove_each batch (old ++ (Concrete <$> batch)) = (Ok tt, old).
Proof.
  induction batch as [|c batch IH]; intros Hold.
  - cbn. by rewrite app_nil_r.
  - cbn [fmap list_fmap remove_each].
    rewrite list_remove_appended by (intros x Hx; apply Hold; [done|left]).
    apply IH. intros x c' Hx Hc'. apply Hold; [done|by right].
Qed.

(** X10. Adding a batch to a port and then removing the same batch, the
    provider accepting both calls, gives back the list the port had, when
    no element of that list equals a rule of the batch, which is how
    [_create_port_rules] chooses what it adds. *)
Theorem add_then_remove_restores provider pid batch old st :
  batch ≠ [] →
  _sec_group_rules st !! pid = Some old →
  (∀ x c, x ∈ old → c ∈ batch → py_eq x (Concrete c) = false) →
  provider (calls st) (create_security_rules pid batch) = None →
  provider (calls st ++ [create_security_rules pid batch])
    (remove_security_rules pid batch) = None →
  (_add_sg_port_rules provider pid batch st).1 = Ok tt
  ∧ (_remove_sg_port_rules provider pid batch
       (_add_sg_port_rules provider pid batch st).2).1 = Ok tt
  ∧ bookkeeping
      (_remove_sg_port_rules provider pid batch
         (_add_sg_port_rules provider pid batch st).2).2
    = bookkeeping st.
Proof.
  intros Hne Hold Hfresh Hadd Hrm.
  rewrite (add_run provider pid batch old st Hne Hold). cbn zeta.
  rewrite Hadd. cbn [fst snd].
  rewrite (remove_run provider pid batch (old ++ (Concrete <$> batch)))
    by (done || (cbn; apply lookup_insert_eq)).
  cbn zeta. cbn [calls with_sec_group_rules record_call].
  rewrite Hrm. rewrite remove_each_appended by done.
  split; [done|]. split; [done|].
  unfold bookkeeping. cbn. rewrite insert_insert_eq. by rewrite insert_id.
Qed.

Lemma add_then_remove_restores_witness :
  (_add_sg_port_rules sample_provider "p1" [dns_allow] one_port_state).1
  = Ok tt
  ∧ (_remove_sg_port_rules sample_provider "p1" [dns_allow]
       (_add_sg_port_rules sample_provider "p1" [dns_allow]
          one_port_state).2).1 = Ok tt
  ∧ bookkeeping
      (_remove_sg_port_rules sample_provider "p1" [dns_allow]
         (_add_sg_port_rules sample_provider "p1" [dns_allow]
            one_port_state).2).2
    = bookkeeping one_port_state.
Proof.
  apply (add_then_remove_restores sample_provider "p1" [dns_allow]
           [Concrete tcp_rule] one_port_state).
  - discriminate.
  - reflexivity.
  - intros x c Hx Hc. apply list_elem_of_singleton in Hx.
    apply list_elem_of_singleton in Hc. subst x c. reflexivity.
  - reflexivity.
  - reflexivity.
Defined.

(** X11. [_create_port_rules] never asks the provider to remove anything:
    it makes no call, or one call creating rules for the port. The rules of
    that call are rules the generator made, none of them equal to an
    element of the list the port had, and on return they have been
    appended to that list. *)
Theorem create_port_rules_only_adds
    nu py_hash provider set_iter pid rules st :
  (∀ l, set_iter l ≡ₚ l) →
  calls (_create_port_rules nu py_hash provider set_iter pid rules st).2
  = calls st
  ∨ ∃ sg_rules old batch,
      create_security_group_rules nu py_hash rules = Ok sg_rules
      ∧ _sec_group_rules st !! pid = Some old
      ∧ batch ≠ []
      ∧ (∀ c, c ∈ batch →
              c ∈ sg_rules ∧ py_in (Concrete c) old = false)
      ∧ calls (_create_port_rules nu py_hash provider set_iter pid rules st).2
        = calls st ++ [create_security_rules pid batch]
      ∧ ((_create_port_rules nu py_hash provider set_iter pid rules st).1
         = Ok tt →
         _sec_group_rules
           (_create_port_rules nu py_hash provider set_iter pid rules st).2
         = <[pid := old ++ (Concrete <$> batch)]> (_sec_group_rules st)).
Proof.
  intros Hperm.
  remember (_create_port_rules nu py_hash provider set_iter pid rules st)
    as run eqn:Hrun.
  unfold _create_port_rules in Hrun.
  destruct (create_security_group_rules nu py_hash rules) as [sg_rules|]
    eqn:Hgen; [|left; by subst run].
  rewrite (bind_lift _ _ st sg_rules) in Hrun by done.
  destruct (_sec_group_rules st !! pid) as [old|] eqn:Hold;
    [|left; subst run; unfold bind, sec_group_rules_getitem, lift;
      by rewrite Hold].
  rewrite (bind_getitem _ _ _ _ Hold) in Hrun.
  cbn [compute_new_rules_add] in Hrun.
  assert (Hrm : list_set set_iter [] = []).
  { unfold list_set. cbn. by apply Permutation_nil_r. }
  rewrite Hrm in Hrun.
  set (batch := list_set set_iter
                  (filter (λ r, py_in (Concrete r) old = false) sg_rules))
    in Hrun.
  assert (Hbatch : ∀ c, c ∈ batch →
            c ∈ sg_rules ∧ py_in (Concrete c) old = false).
  { intros c Hc. subst batch. unfold list_set in Hc. rewrite Hperm in Hc.
    assert (Hsub : ∀ acc l x, x ∈ set_members acc l → x ∈ acc ∨ x ∈ l).
    { intros acc l. revert acc. induction l as [|y l IH]; intros acc x Hx.
      - by left.
      - cbn in Hx. destruct (existsb _ acc).
        + destruct (IH _ _ Hx); [by left|right; by right].
        + destruct (IH _ _ Hx) as [Hacc|]; [|right; by right].
          apply elem_of_app in Hacc as [|Hy]; [by left|].
          apply list_elem_of_singleton in Hy. subst. right. left. }
    destruct (Hsub _ _ _ Hc) as [Hnil|Hin];
      [by apply not_elem_of_nil in Hnil|].
    by apply list_elem_of_filter in Hin as [? ?]. }
  clearbody batch.
  destruct batch as [|c batch']; [left; by subst run|].
  right. exists sg_rules, old, (c :: batch').
  split; [done|]. split; [done|]. split; [done|]. split; [done|].
  unfold bind in Hrun.
  rewrite (add_run provider pid (c :: batch') old st) in Hrun by done.
  cbn zeta in Hrun.
  destruct (provider (calls st) _); subst run; cbn; by split.
Qed.

Lemma create_port_rules_only_adds_witness :
  calls (_create_port_rules sample_networkutils sample_hash sample_provider
           sample_set_iter "p1" [Abstract ssh_template] one_port_state).2
  = calls one_port_state
  ∨ ∃ sg_rules old batch,
      create_security_group_rules sample_networkutils sample_hash
        [Abstract ssh_template] = Ok sg_rules
      ∧ _sec_group_rules one_port_state !! "p1" = Some old
      ∧ batch ≠ []
      ∧ (∀ c, c ∈ batch →
              c ∈ sg_rules ∧ py_in (Concrete c) old = false)
      ∧ calls (_create_port_rules sample_networkutils sample_hash
                 sample_provider sample_set_iter "p1"
                 [Abstract ssh_template] one_port_state).2
        = calls one_port_state ++ [create_security_rules "p1" batch]
      ∧ ((_create_port_rules sample_networkutils sample_hash sample_provider
            sample_set_iter "p1" [Abstract ssh_template] one_port_state).1
         = Ok tt →
         _sec_group_rules
           (_create_port_rules sample_networkutils sample_hash
              sample_provider sample_set_iter "p1" [Abstract ssh_template]
              one_port_state).2
         = <["p1" := old ++ (Concrete <$> batch)]>
             (_sec_group_rules one_port_state)).
Proof.
  apply (create_port_rules_only_adds sample_networkutils sample_hash
           sample_provider sample_set_iter "p1" [Abstract ssh_template]
           one_port_state).
  intros l. reflexivity.
Defined.

(** X12. [compute_new_rules_add] never proposes a removal. Of the new
    rules it keeps those equal to no element of the old list: none when the
    old list holds these very rules, and all of them when the old list
    holds dictionaries. *)
Theorem new_rules_add_diff
    (old : list item) (l : list rule) (new : list SecurityGroupRuleR2) :
  (compute_new_rules_add old new).2 = []
  ∧ (∀ c, c ∈ (compute_new_rules_add old new).1
          ↔ c ∈ new ∧ py_in (Concrete c) old = false)
  ∧ (compute_new_rules_add (Concrete <$> new) new).1 = []
  ∧ (compute_new_rules_add (Abstract <$> l) new).1 = new.
Proof.
  split; [done|]. split; [|split].
  - intros c. cbn. rewrite list_elem_of_filter. tauto.
  - cbn. apply filter_none. intros c Hc Hout.
    assert (py_in (Concrete c) (Concrete <$> new) = true); [|congruence].
    unfold py_in. apply existsb_exists. exists (Concrete c).
    split; [apply list_elem_of_In; by apply list_elem_of_fmap_2|].
    cbn [py_eq]. apply rule_eq_refl.
  - cbn. induction new as [|c new IH]; [done|].
    rewrite filter_cons_True by apply dict_never_equals_rule.
    by rewrite IH.
Qed.

(** * Further properties of the lifecycle *)

Lemma bind_Raise {A B} (m : M A) (k : A → M B) st e st' :
  bind m k st = (Raise e, st') →
  m st = (Raise e, st')
  ∨ ∃ a st1, m st = (Ok a, st1) ∧ k a st1 = (Raise e, st').
Proof.
  unfold bind. destruct (m st) as [[a|e1] st1]; [eauto|].
  intros [= -> ->]. by left.
Qed.

Lemma lift_run {A} (f : driver → outcome A) st r st' :
  lift f st = (r, st') → st' = st.
Proof. by intros [= _ <-]. Qed.

Section Failures.

Context (nu : NetworkUtils).
Context (py_hash : pyval * pyval * string * pyval * string → Z).
Context (ipnetwork_cidr : string → outcome string).
Context (provider : list provider_call → provider_call → option string).
Context (set_iter : list SecurityGroupRuleR2 → list SecurityGroupRuleR2).

(** The last steps of both lifecycle calls, once [newrules] has an entry
    for the port: they cannot raise. *)
Lemma record_port_returns (p : port) newrules rules st e st' :
  newrules !! port_id p = Some rules →
  (modify (with_security_ports (<[device p := p]>));;;
   do! rules := newrules_getitem newrules (port_id p) in
   modify (with_sec_group_rules (<[port_id p := Abstract <$> rules]>))
  )%driver st = (Raise e, st') →
  False.
Proof.
  intros Hrules. rewrite bind_modify. unfold newrules_getitem.
  rewrite (bind_lift _ _ _ rules) by (by rewrite Hrules). done.
Qed.

Lemma prepare_Raise p st e st' :
  prepare_port_filter nu py_hash ipnetwork_cidr provider set_iter p st
  = (Raise e, st') →
  _security_ports st' = _security_ports st.
Proof.
  unfold prepare_port_filter. intros H.
  apply bind_Raise in H as [H|(known & st0 & Hknown & H)]; [done|].
  apply lift_Ok in Hknown as [_ ->].
  assert (Hsetup : frames helper_frame
    (match known with
     | Some _ => ret tt
     | None =>
         (modify (with_sec_group_rules (<[port_id p := []]>));;;
          _add_sg_port_rules provider (port_id p)
            (create_default_sg_rules nu py_hash);;;
          _create_port_rules nu py_hash provider set_iter (port_id p)
            (Abstract <$> security_group_rules p))%driver
     end)).
  { destruct known; [apply (frames_ret helper_frame)|].
    apply (frames_bind helper_frame); [apply frames_rules_update|intros _].
    apply (frames_bind helper_frame); [apply frames_add|intros _].
    apply frames_create_port_rules. }
  apply bind_Raise in H as [H|([] & st1 & Hrun & H)].
  { by destruct (run_frames _ _ _ _ _ Hsetup H) as (_ & _ & ? & _). }
  destruct (run_frames _ _ _ _ _ Hsetup Hrun) as (_ & _ & Hports1 & _).
  apply bind_Raise in H as [H|(newrules & st2 & Hgen & H)].
  { apply lift_run in H. by subst. }
  apply lift_Ok in Hgen as [_ ->].
  apply bind_Raise in H as [H|(rules & st2 & Hrules & H)].
  { apply lift_run in H. by subst. }
  apply newrules_getitem_Ok in Hrules as [Hrules ->].
  apply bind_Raise in H as [H|([] & st2 & Hcreate & H)].
  { destruct (run_frames _ _ _ _ _
                (frames_create_port_rules nu py_hash provider set_iter _ _) H)
      as (_ & _ & ? & _). congruence. }
  by destruct (record_port_returns p newrules rules st2 e st' Hrules H).
Qed.

Lemma update_Raise p st e st' :
  update_port_filter nu py_hash ipnetwork_cidr provider set_iter p st
  = (Raise e, st') →
  _security_ports st' = _security_ports st.
Proof.
  unfold update_port_filter. intros H.
  apply bind_Raise in H as [H|(known & st0 & Hknown & H)]; [done|].
  apply lift_Ok in Hknown as [_ ->].
  destruct known as [old_port|]; [|done]. cbv zeta in H.
  apply bind_Raise in H as [H|(newrules & st2 & Hgen & H)].
  { apply lift_run in H. by subst. }
  apply lift_Ok in Hgen as [_ ->].
  apply bind_Raise in H as [H|(rules & st2 & Hrules & H)].
  { apply lift_run in H. by subst. }
  apply newrules_getitem_Ok in Hrules as [Hrules ->].
  assert (Hfresh : frames helper_frame
    (match rules with
     | [] => ret []
     | _ :: _ =>
         (do! current := sec_group_rules_getitem (port_id p) in
          ret (filter (λ r, py_in (Abstract r) current = false) rules)
         )%driver
     end)).
  { destruct rules; [apply (frames_ret helper_frame)|].
    apply (frames_bind helper_frame); [apply (frames_lift helper_frame)|].
    intros ?. apply (frames_ret helper_frame). }
  apply bind_Raise in H as [H|(fresh & st1 & Hrun & H)].
  { by destruct (run_frames _ _ _ _ _ Hfresh H) as (_ & _ & ? & _). }
  destruct (run_frames _ _ _ _ _ Hfresh Hrun) as (_ & _ & Hp1 & _).
  apply bind_Raise in H as [H|(current & st2 & Hcur & H)].
  { apply lift_run in H. by subst. }
  apply lift_Ok in Hcur as [_ ->].
  apply bind_Raise in H as [H|([] & st2 & Hcreate & H)].
  { destruct (run_frames _ _ _ _ _
                (frames_create_port_rules nu py_hash provider set_iter _ _) H)
      as (_ & _ & ? & _). congruence. }
  destruct (run_frames _ _ _ _ _
              (frames_create_port_rules nu py_hash provider set_iter _ _)
              Hcreate) as (_ & _ & Hp2 & _).
  apply bind_Raise in H as [H|([] & st3 & Hremove & H)].
  { destruct (run_frames _ _ _ _ _
                (frames_remove_port_rules nu py_hash provider set_iter _ _) H)
      as (_ & _ & ? & _). congruence. }
  by destruct (record_port_returns p newrules rules st3 e st' Hrules H).
Qed.

End Failures.

(** X13. Neither lifecycle call ever writes the two caches, and the log of
    provider calls only grows; a call that raises leaves the record of
    known devices as it was, so a device whose [prepare_port_filter] failed
    is still unknown and gets the default rules again at the next try. *)
Theorem lifecycle_failure_keeps_ports
    nu py_hash ipnetwork_cidr provider set_iter p st :
  lifecycle_frame st
    (prepare_port_filter nu py_hash ipnetwork_cidr provider set_iter p st).2
  ∧ lifecycle_frame st
      (update_port_filter nu py_hash ipnetwork_cidr provider set_iter p st).2
  ∧ (∀ e st',
       prepare_port_filter nu py_hash ipnetwork_cidr provider set_iter p st
       = (Raise e, st') →
       _security_ports st' = _security_ports st)
  ∧ (∀ e st',
       update_port_filter nu py_hash ipnetwork_cidr provider set_iter p st
       = (Raise e, st') →
       _security_ports st' = _security_ports st).
Proof.
  split; [apply frames_prepare|]. split; [apply frames_update|].
  split; intros e st'; [apply prepare_Raise|apply update_Raise].
Qed.

Lemma create_port_rules_no_entry nu py_hash provider set_iter pid rules st :
  _sec_group_rules st !! pid = None →
  ∃ e,
    _create_port_rules nu py_hash provider set_iter pid rules st
    = (Raise e, st).
Proof.
  intros Hentry. unfold _create_port_rules.
  destruct (create_security_group_rules nu py_hash rules) as [sg_rules|e].
  - rewrite (bind_lift _ _ st sg_rules) by done.
    exists KeyError. unfold bind, sec_group_rules_getitem, lift.
    by rewrite Hentry.
  - by exists e.
Qed.

(** X14. [prepare_port_filter] for a device that is known, under a port id
    that has no list: the call raises, asks nothing of the provider and
    leaves the driver as it was. *)
Theorem prepare_known_device_new_port_id
    nu py_hash ipnetwork_cidr provider set_iter p q st :
  _security_ports st !! device p = Some q →
  _sec_group_rules st !! port_id p = None →
  ∃ e,
    prepare_port_filter nu py_hash ipnetwork_cidr provider set_iter p st
    = (Raise e, st).
Proof.
  intros Hknown Hentry. unfold prepare_port_filter.
  rewrite (bind_lift _ _ st (Some q)) by (by rewrite Hknown).
  cbv beta iota. unfold bind at 1. cbn [ret].
  destruct (_generate_rules ipnetwork_cidr st [p]) as [newrules|e] eqn:Hgen;
    [|exists e; unfold bind, lift; by rewrite Hgen].
  rewrite (bind_lift _ _ st newrules) by done.
  destruct (newrules !! port_id p) as [rules|] eqn:Hrules;
    [|exists KeyError; unfold bind, newrules_getitem, lift; by rewrite Hrules].
  unfold newrules_getitem at 1.
  rewrite (bind_lift _ _ st rules) by (by rewrite Hrules).
  unfold bind at 1.
  destruct (create_port_rules_no_entry nu py_hash provider set_iter
              (port_id p) (Abstract <$> rules) st Hentry) as [e ->].
  by exists e.
Qed.

Lemma prepare_known_device_new_port_id_witness :
  ∃ e,
    sample_prepare
      {| port_id := "p2"; device := "tap1"; fixed_ips := [];
         security_groups := []; security_group_rules := [] |}
      (sample_prepare web_port web_state).2
    = (Raise e, (sample_prepare web_port web_state).2).
Proof.
  apply (prepare_known_device_new_port_id sample_networkutils sample_hash
           sample_cidr sample_provider sample_set_iter
           {| port_id := "p2"; device := "tap1"; fixed_ips := [];
              security_groups := []; security_group_rules := [] |}
           web_port (sample_prepare web_port web_state).2).
  - vm_compute. reflexivity.
  - vm_compute. reflexivity.
Defined.

(** X15. After a [prepare_port_filter] that returned, an
    [update_port_filter] with the same port description and the caches as
    they are asks nothing of the provider and leaves the driver as it is;
    and [update_port_filter] for a device that was never prepared returns
    at once, touching nothing, whatever the caches hold. *)
Theorem update_after_prepare_is_quiet
    nu py_hash ipnetwork_cidr provider set_iter p st st' :
  set_iter [] = [] →
  prepare_port_filter nu py_hash ipnetwork_cidr provider set_iter p st
  = (Ok tt, st') →
  update_port_filter nu py_hash ipnetwork_cidr provider set_iter p st'
  = (Ok tt, st')
  ∧ ∀ st0 q,
      _security_ports st0 !! device q = None →
      update_port_filter nu py_hash ipnetwork_cidr provider set_iter q st0
      = (Ok tt, st0).
Proof.
  intros Hnil Hprepare. split.
  - eapply synchronized_in_sync; [done|]. by eapply prepare_Ok.
  - intros st0 q Hnew. unfold update_port_filter.
    by rewrite (bind_lift _ _ st0 None) by (by rewrite Hnew).
Qed.

Lemma update_after_prepare_is_quiet_witness :
  sample_update web_port (sample_prepare web_port web_state).2
  = (Ok tt, (sample_prepare web_port web_state).2)
  ∧ ∀ st0 q,
      _security_ports st0 !! device q = None →
      sample_update q st0 = (Ok tt, st0).
Proof.
  apply (update_after_prepare_is_quiet sample_networkutils sample_hash
           sample_cidr sample_provider sample_set_iter web_port web_state
           (sample_prepare web_port web_state).2).
  - reflexivity.
  - vm_compute. reflexivity.
Defined.

(** X16. [remove_port_filter] forgets the device and the list of the port
    id, and only those; it asks the provider for one thing, to clear its
    cache for the port, and removes no rule there; the port is forgotten
    even when that call raises, in which case the exception reaches the
    caller. A [prepare_port_filter] that follows finds the device unknown
    and starts with the default rules again. *)
Theorem remove_port_filter_forgets
    nu py_hash ipnetwork_cidr provider set_iter p st :
  _security_ports (remove_port_filter provider p st).2
  = delete (device p) (_security_ports st)
  ∧ _sec_group_rules (remove_port_filter provider p st).2
    = delete (port_id p) (_sec_group_rules st)
  ∧ _sg_members (remove_port_filter provider p st).2 = _sg_members st
  ∧ _sg_rule_templates (remove_port_filter provider p st).2
    = _sg_rule_templates st
  ∧ calls (remove_port_filter provider p st).2
    = calls st ++ [clear_port_sg_acls_cache (port_id p)]
  ∧ (remove_port_filter provider p st).1
    = match provider (calls st) (clear_port_sg_acls_cache (port_id p)) with
      | None => Ok tt
      | Some msg => Raise (ProviderException msg)
      end
  ∧ ∃ rest,
      calls (prepare_port_filter nu py_hash ipnetwork_cidr provider set_iter
               p (remove_port_filter provider p st).2).2
      = calls st
          ++ clear_port_sg_acls_cache (port_id p)
          :: create_security_rules (port_id p)
               (create_default_sg_rules nu py_hash)
          :: rest.
Proof.
  assert (Hrun : remove_port_filter provider p st
    = (match provider (calls st) (clear_port_sg_acls_cache (port_id p)) with
       | None => Ok tt
       | Some msg => Raise (ProviderException msg)
       end,
       record_call (clear_port_sg_acls_cache (port_id p))
         (with_sec_group_rules (delete (port_id p))
            (with_security_ports (delete (device p)) st)))).
  { unfold remove_port_filter. rewrite !bind_modify. unfold invoke. cbn.
    by destruct (provider _ _). }
  rewrite Hrun. cbn [fst snd]. repeat (split; [done|]).
  destruct (prepare_unknown_first_call nu py_hash ipnetwork_cidr provider
              set_iter p
              (record_call (clear_port_sg_acls_cache (port_id p))
                 (with_sec_group_rules (delete (port_id p))
                    (with_security_ports (delete (device p)) st))))
    as [rest Hrest].
  { cbn. apply lookup_delete_eq. }
  exists rest. rewrite Hrest. cbn. by rewrite <- app_assoc.
Qed.
